(** * Authorization core of the warehouse-management API

    A shallow embedding of the token service ([token.service.ts]), the
    one-time-code and session flows of the auth service
    ([auth.service.ts]) and the permission resolver
    ([permission.service.ts]), with the properties stated about them.

    Conventions of the embedding
    - MongoDB collections are lists in insertion (natural) order;
      [findOne] returns the first match, [updateOne] rewrites the first
      match, [updateMany]/[deleteMany] act on every match.
    - [Date] values and [Date.now()] are integers (milliseconds); one
      clock reading [now] is taken per service call.
    - Values the code draws from outside (the clock, the random 6-digit
      code, a freshly generated [ObjectId], the outcome of the mail
      transport) are explicit arguments.
    - The [jsonwebtoken] codec and the [crypto] digests are external
      libraries: they are variables of the section, and whatever a
      theorem needs from them is a hypothesis of that theorem.
    - The module-level [tokenBlacklist] (a [Set<string>]) and
      [permissionCache] (a [Map]) are fields of the [World] next to the
      database. *)

From Stdlib Require Import String Ascii List ZArith Bool Lia.
From stdpp Require Import base decidable option gmap strings.
Import ListNotations.

Local Open Scope string_scope.
Local Open Scope Z_scope.

(** ** Enumerations ([constants/enums.ts]) *)

Inductive TokenType : Type :=
  | AccessToken
  | RefreshToken
  | ForgotPasswordToken
  | OTPVerify.

Inductive OtpVerifyType : Type :=
  | EmailVerification
  | PasswordReset.

Inductive UserVerifyStatus : Type :=
  | Unverified
  | Verified
  | Celerity
  | Banned.

#[global] Instance TokenType_eq_dec : EqDecision TokenType.
Proof. solve_decision. Defined.

#[global] Instance OtpVerifyType_eq_dec : EqDecision OtpVerifyType.
Proof. solve_decision. Defined.

#[global] Instance UserVerifyStatus_eq_dec : EqDecision UserVerifyStatus.
Proof. solve_decision. Defined.

(** The string value of each [TokenType] member, as interpolated into
    error messages. *)
Definition TokenType_value (t : TokenType) : string :=
  match t with
  | AccessToken => "AccessToken"
  | RefreshToken => "RefreshToken"
  | ForgotPasswordToken => "ForgotPasswordToken"
  | OTPVerify => "OTPVerifyToken"
  end.

(** [UserRole.Admin] *)
Definition UserRole_Admin : string := "Admin".

(** ** HTTP statuses and messages

    [constants/httpStatus] is not part of the sources at hand; only the
    member names used by the services are kept, as a symbolic type. *)

Inductive HttpStatus : Type :=
  | BAD_REQUEST
  | UN_AUTHORIZED
  | NOT_FOUND
  | INTERNAL_SERVER_ERROR.

#[global] Instance HttpStatus_eq_dec : EqDecision HttpStatus.
Proof. solve_decision. Defined.

Module MESSAGE.
Definition TOKEN_MISSING : string := "Token is missing".
Definition TOKEN_INVALID : string := "Invalid token".
Definition USER_ID_MISSING : string := "User ID is missing".
Definition USER_NOT_FOUND : string := "User not found".
Definition INVALID_OTP : string := "Invalid or expired OTP code".
Definition NEW_PASSWORD_SAME_AS_CURRENT : string :=
  "New password must be different from current password".
End MESSAGE.

(** ** JavaScript truthiness of the values the services test with [!x] *)

Definition truthy (s : string) : bool := negb (String.eqb s "").

Definition truthy_opt (o : option string) : bool :=
  match o with
  | Some s => truthy s
  | None => false
  end.

(** [a || b] on strings *)
Definition or_else (a : option string) (b : string) : string :=
  match a with
  | Some s => if truthy s then s else b
  | None => b
  end.

(** ** ObjectId

    An [ObjectId] is kept in its canonical text form (what [toString()]
    prints: 24 lower-case hexadecimal digits).  [new ObjectId(s)] accepts a
    24-digit hexadecimal string of either case and throws a [BSONError]
    on any other string. *)

Definition ObjectId : Type := string.

Definition is_hex_digit (c : ascii) : bool :=
  let n := N_of_ascii c in
  ((48 <=? n) && (n <=? 57) || (97 <=? n) && (n <=? 102)
   || (65 <=? n) && (n <=? 70))%N.

Definition lower_ascii (c : ascii) : ascii :=
  let n := N_of_ascii c in
  if ((65 <=? n) && (n <=? 90))%N then ascii_of_N (n + 32) else c.

Fixpoint toLowerCase (s : string) : string :=
  match s with
  | EmptyString => EmptyString
  | String c r => String (lower_ascii c) (toLowerCase r)
  end.

Fixpoint all_hex (s : string) : bool :=
  match s with
  | EmptyString => true
  | String c r => is_hex_digit c && all_hex r
  end.

Definition ObjectId_isValid (s : string) : bool :=
  Nat.eqb (String.length s) 24 && all_hex s.

(** [new ObjectId(s)]: [None] stands for the thrown [BSONError]. *)
Definition newObjectId (s : string) : option ObjectId :=
  if ObjectId_isValid s then Some (toLowerCase s) else None.

(** [o.toString()] *)
Definition ObjectId_toString (o : ObjectId) : string := o.

(** ** Documents ([models/*.schema.ts], fields the services touch) *)

(** [Token] *)
Record Token : Type := mkToken {
  tk_token_id : string;
  tk_user_id : ObjectId;
  tk_token : string;
  tk_type : TokenType;
  tk_expires_at : Z;
  tk_is_removed : bool
}.

(** [Otp] *)
Record Otp : Type := mkOtp {
  otp_id : ObjectId;
  otp_user_id : ObjectId;
  otp_code : string;
  otp_expired_at : Z;
  otp_created_at : Z;
  otp_type : OtpVerifyType;
  otp_is_used : bool
}.

(** [User] *)
Record User : Type := mkUser {
  usr_id : ObjectId;
  usr_email : string;
  usr_password : string;
  usr_roles : list ObjectId;
  usr_verify : UserVerifyStatus;
  usr_is_removed : bool;
  usr_password_change_at : option Z
}.

(** [Role] *)
Record Role : Type := mkRole {
  role_id : ObjectId;
  role_name : string;
  role_is_active : bool;
  role_permissions : list ObjectId
}.

(** [Permission]; [conditions] is kept as its JSON text. *)
Record Permission : Type := mkPermission {
  perm_id : ObjectId;
  perm_name : string;
  perm_action : string;
  perm_subject : string;
  perm_conditions : option string
}.

(** [CachedPermission] *)
Record CachedPermission : Type := mkCachedPermission {
  cp_id : string;
  cp_name : string;
  cp_action : string;
  cp_subject : string;
  cp_conditions : option string
}.

(** [UserPermissionCache] *)
Record UserPermissionCache : Type := mkUserPermissionCache {
  upc_permissions : list CachedPermission;
  upc_timestamp : Z
}.

(** ** Token payloads ([utils/interface/Jwt.interface.ts])

    One record for the duck-typed payload object: the fields of
    [AccessTokenPayload] and [RefreshTokenPayload] beyond [TokenPayload]
    are optional. *)
Record TokenPayload : Type := mkPayload {
  sub : string;
  type : TokenType;
  iat : Z;
  exp : Z;
  email : option string;
  roles : option (list string);
  tokenId : option string
}.

#[global] Instance TokenPayload_eq_dec : EqDecision TokenPayload.
Proof. solve_decision. Defined.

(** [TokenValidationResult] *)
Record TokenValidationResult : Type := mkResult {
  valid : bool;
  expired : bool;
  payload : option TokenPayload;
  error : option string
}.

(** ** The database and the process state *)

Record Db : Type := mkDb {
  users : list User;
  db_roles : list Role;
  permissions : list Permission;
  tokens : list Token;
  otps : list Otp
}.

Record World : Type := mkWorld {
  db : Db;
  tokenBlacklist : gset string;
  permissionCache : gmap string UserPermissionCache
}.

Definition set_tokens (f : list Token -> list Token) (w : World) : World :=
  {| db := {| users := users (db w); db_roles := db_roles (db w);
              permissions := permissions (db w);
              tokens := f (tokens (db w)); otps := otps (db w) |};
     tokenBlacklist := tokenBlacklist w;
     permissionCache := permissionCache w |}.

Definition set_otps (f : list Otp -> list Otp) (w : World) : World :=
  {| db := {| users := users (db w); db_roles := db_roles (db w);
              permissions := permissions (db w);
              tokens := tokens (db w); otps := f (otps (db w)) |};
     tokenBlacklist := tokenBlacklist w;
     permissionCache := permissionCache w |}.

Definition set_users (f : list User -> list User) (w : World) : World :=
  {| db := {| users := f (users (db w)); db_roles := db_roles (db w);
              permissions := permissions (db w);
              tokens := tokens (db w); otps := otps (db w) |};
     tokenBlacklist := tokenBlacklist w;
     permissionCache := permissionCache w |}.

Definition set_blacklist (f : gset string -> gset string) (w : World) : World :=
  {| db := db w;
     tokenBlacklist := f (tokenBlacklist w);
     permissionCache := permissionCache w |}.

Definition set_cache
    (f : gmap string UserPermissionCache -> gmap string UserPermissionCache)
    (w : World) : World :=
  {| db := db w;
     tokenBlacklist := tokenBlacklist w;
     permissionCache := f (permissionCache w) |}.

(** ** Collection primitives *)

Section Collection.
Context {A : Type}.

Definition findOne (q : A -> bool) (c : list A) : option A := List.find q c.

Definition insertOne (d : A) (c : list A) : list A := c ++ [d].

Fixpoint updateOne (q : A -> bool) (f : A -> A) (c : list A) : list A :=
  match c with
  | [] => []
  | d :: r => if q d then f d :: r else d :: updateOne q f r
  end.

Definition updateMany (q : A -> bool) (f : A -> A) (c : list A) : list A :=
  List.map (fun d => if q d then f d else d) c.

Definition deleteMany (q : A -> bool) (c : list A) : list A :=
  List.filter (fun d => negb (q d)) c.

(** [findOne(q, { sort: { key: -1 } })]: the match with the greatest
    key; among equal keys the earliest in natural order. *)
Fixpoint findOne_desc (key : A -> Z) (q : A -> bool) (c : list A) : option A :=
  match c with
  | [] => None
  | d :: r =>
      if q d then
        match findOne_desc key q r with
        | Some d' => if key d <? key d' then Some d' else Some d
        | None => Some d
        end
      else findOne_desc key q r
  end.
End Collection.

(** ** Exceptions and the service monad

    A service call runs on a [World] and either returns or throws; the
    writes made before a throw stay. *)

Inductive Exn : Type :=
  | ErrorWithStatus (message : string) (status : HttpStatus)
  | JsError (name : string) (message : string).

Inductive Outcome (A : Type) : Type :=
  | Returns (a : A)
  | Throws (e : Exn).
Arguments Returns {A} a.
Arguments Throws {A} e.

Definition M (A : Type) : Type := World -> Outcome A * World.

Definition ret {A} (a : A) : M A := fun w => (Returns a, w).

Definition throw {A} (e : Exn) : M A := fun w => (Throws e, w).

Definition bind {A B} (m : M A) (k : A -> M B) : M B :=
  fun w =>
    match m w with
    | (Returns a, w') => k a w'
    | (Throws e, w') => (Throws e, w')
    end.

Definition try_catch {A} (m : M A) (h : Exn -> M A) : M A :=
  fun w =>
    match m w with
    | (Returns a, w') => (Returns a, w')
    | (Throws e, w') => h e w'
    end.

Definition get_world : M World := fun w => (Returns w, w).

Definition modify (f : World -> World) : M unit := fun w => (Returns tt, f w).

#[global] Instance M_ret : MRet M := @ret.
#[global] Instance M_bind : MBind M := fun A B k m => bind m k.

(** The error thrown by [new ObjectId] on a malformed string. *)
Definition BSONError_name : string := "BSONError".
Definition BSONError_message : string :=
  "input must be a 24 character hex string, 12 byte Uint8Array, or an integer".
Definition BSONError : Exn := JsError BSONError_name BSONError_message.

Definition liftObjectId (s : string) : M ObjectId :=
  match newObjectId s with
  | Some o => ret o
  | None => throw BSONError
  end.

(** ** Configuration and external libraries *)

(** [config/env.config]: the entries read by the services; the
    [*_EXPIRESIN] entries are given as the integers [parseInt] yields. *)
Record Env : Type := mkEnv {
  ACCESS_TOKEN_PRIVATE_KEY : string;
  REFRESH_TOKEN_PRIVATE_KEY : string;
  FORGOT_PASSWORD_TOKEN_PRIVATE_KEY : string;
  OTP_SECRET : string;
  ACCESS_TOKEN_EXPIRESIN : Z;
  REFRESH_TOKEN_EXPIRESIN : Z;
  PASSWORD_SECRET : string
}.

(** What [jwt.verify(token, secret)] does: return the payload or throw
    an error with a [name] and a [message]. *)
Inductive JwtVerify : Type :=
  | VerifyOk (p : TokenPayload)
  | VerifyThrows (name : string) (message : string).

Section Services.

Variable env : Env.

(** [jwt.sign(payload, key)] *)
Variable jwt_sign : TokenPayload -> string -> string.
(** [jwt.verify(token, secret)] at clock reading [now] *)
Variable jwt_verify : string -> string -> Z -> JwtVerify.
(** [jwt.decode(token)]; [None] is [null] *)
Variable jwt_decode : string -> option TokenPayload.
(** [createHash(env.HASH_ALGORITHMS).update(content).digest('hex')] *)
Variable createHash : string -> string.
(** [createHmac('sha256', key).update(content).digest('hex')] *)
Variable createHmac : string -> string -> string.

(** *** token.service.ts *)

Definition invalidToken (error : string) : TokenValidationResult :=
  {| valid := false; expired := false; payload := None; error := Some error |}.

Definition TOKEN_SECRET_MAP (t : TokenType) : string :=
  match t with
  | AccessToken => ACCESS_TOKEN_PRIVATE_KEY env
  | RefreshToken => REFRESH_TOKEN_PRIVATE_KEY env
  | ForgotPasswordToken => FORGOT_PASSWORD_TOKEN_PRIVATE_KEY env
  | OTPVerify => OTP_SECRET env
  end.

(** [Math.floor(Date.now() / 1000)] *)
Definition epoch_seconds (now : Z) : Z := now / 1000.

Definition accessPayload (userId email : string) (roles : list ObjectId)
    (now : Z) : TokenPayload :=
  {| sub := userId;
     type := AccessToken;
     iat := epoch_seconds now;
     exp := epoch_seconds now + ACCESS_TOKEN_EXPIRESIN env;
     email := Some email;
     roles := Some (List.map ObjectId_toString roles);
     tokenId := None |}.

Definition generateAccessToken (userId email : string)
    (roles : list ObjectId) (now : Z) : string :=
  jwt_sign (accessPayload userId email roles now)
           (ACCESS_TOKEN_PRIVATE_KEY env).

Definition refreshPayload (userId tokenId : string) (now : Z) : TokenPayload :=
  {| sub := userId;
     type := RefreshToken;
     iat := epoch_seconds now;
     exp := epoch_seconds now + REFRESH_TOKEN_EXPIRESIN env;
     email := None;
     roles := None;
     tokenId := Some tokenId |}.

(** [tokenId] is the value of [new ObjectId().toString()]. *)
Definition generateRefreshToken (userId tokenId : string) (now : Z)
    : M (string * string) :=
  let payload := refreshPayload userId tokenId now in
  let token := jwt_sign payload (REFRESH_TOKEN_PRIVATE_KEY env) in
  user_id ← liftObjectId userId;
  let newToken :=
    {| tk_token_id := tokenId;
       tk_user_id := user_id;
       tk_token := token;
       tk_type := RefreshToken;
       tk_expires_at := exp payload * 1000;
       tk_is_removed := false |} in
  _ ← modify (set_tokens (insertOne newToken));
  mret (token, tokenId).

(** The filter of the refresh-token lookup and update, without the
    [is_removed] clause. *)
Definition refresh_row (tid : string) (uid : ObjectId) (d : Token) : bool :=
  String.eqb (tk_token_id d) tid
  && String.eqb (tk_user_id d) uid
  && bool_decide (tk_type d = RefreshToken).

(** The [catch] block of [validateToken]. *)
Definition validateToken_catch (name message : string) : TokenValidationResult :=
  if String.eqb name "TokenExpiredError" then invalidToken "Token has expired"
  else invalidToken (if truthy message then message else "Invalid token").

Definition validateToken (w : World) (now : Z) (token : string)
    (expectedType : TokenType) : TokenValidationResult :=
  if bool_decide (token ∈ tokenBlacklist w) then
    invalidToken "Token has been invalidated"
  else
    let secret := TOKEN_SECRET_MAP expectedType in
    if negb (truthy secret) then invalidToken "Unsupported token type"
    else
      match jwt_verify token secret now with
      | VerifyThrows name message => validateToken_catch name message
      | VerifyOk p =>
          if negb (bool_decide (type p = expectedType)) then
            invalidToken ("Invalid token type. Expected '"
                          ++ TokenType_value expectedType ++ "', got '"
                          ++ TokenType_value (type p) ++ "'")
          else if bool_decide (expectedType = RefreshToken) then
            if negb (truthy_opt (tokenId p)) || negb (truthy (sub p)) then
              invalidToken "Malformed refresh token payload"
            else
              match newObjectId (sub p) with
              | None => validateToken_catch BSONError_name BSONError_message
              | Some uid =>
                  match findOne
                          (fun d => refresh_row (default "" (tokenId p)) uid d
                                    && negb (tk_is_removed d))
                          (tokens (db w)) with
                  | None => invalidToken "Token has been revoked or does not exist"
                  | Some _ =>
                      {| valid := true; expired := false;
                         payload := Some p; error := None |}
                  end
              end
          else
            {| valid := true; expired := false;
               payload := Some p; error := None |}
      end.

Definition mark_removed (d : Token) : Token :=
  {| tk_token_id := tk_token_id d; tk_user_id := tk_user_id d;
     tk_token := tk_token d; tk_type := tk_type d;
     tk_expires_at := tk_expires_at d; tk_is_removed := true |}.

(** Never throws: a failure while reading the token is caught and
    logged, the blacklist entry stays. *)
Definition invalidateToken (token : string) (w : World) : World :=
  let w1 := set_blacklist (fun b => {[ token ]} ∪ b) w in
  match jwt_decode token with
  | Some p =>
      if truthy_opt (tokenId p) && truthy (sub p)
         && bool_decide (type p = RefreshToken) then
        match newObjectId (sub p) with
        | Some uid =>
            set_tokens
              (updateOne (refresh_row (default "" (tokenId p)) uid) mark_removed)
              w1
        | None => w1
        end
      else w1
  | None => w1
  end.

Definition invalidateAllUserRefreshTokens (userId : string) : M unit :=
  user_id ← liftObjectId userId;
  modify (set_tokens
            (updateMany
               (fun d => String.eqb (tk_user_id d) user_id
                         && bool_decide (tk_type d = RefreshToken))
               mark_removed)).

Definition cleanupExpiredTokens (now : Z) : M Z :=
  w ← get_world;
  let expired_row := fun d => tk_expires_at d <? now in
  let deletedCount :=
    Z.of_nat (List.length (List.filter expired_row (tokens (db w)))) in
  _ ← modify (set_tokens (deleteMany expired_row));
  mret deletedCount.

(** *** permission.service.ts *)

(** 5 minutes, in milliseconds *)
Definition CACHE_TTL : Z := 5 * 60 * 1000.

Definition toCachedPermission (p : Permission) : CachedPermission :=
  {| cp_id := ObjectId_toString (perm_id p);
     cp_name := perm_name p;
     cp_action := perm_action p;
     cp_subject := perm_subject p;
     cp_conditions := perm_conditions p |}.

(** [{ $in: ids }] *)
Definition oid_in (o : ObjectId) (ids : list ObjectId) : bool :=
  List.existsb (String.eqb o) ids.

Definition clearUserCache (userId : string) : M unit :=
  modify (set_cache (delete userId)).

Definition clearCache : M unit :=
  modify (set_cache (fun _ => ∅)).

Definition getUserPermissionsFromDB (userId : string)
    : M (list CachedPermission) :=
  user_id ← liftObjectId userId;
  w ← get_world;
  match findOne (fun u => String.eqb (usr_id u) user_id) (users (db w)) with
  | None => mret []
  | Some user =>
      if Nat.eqb (List.length (usr_roles user)) 0 then mret []
      else
        let userRoles :=
          List.filter
            (fun r => oid_in (role_id r) (usr_roles user) && role_is_active r)
            (db_roles (db w)) in
        if Nat.eqb (List.length userRoles) 0 then mret []
        else
          let isAdmin :=
            List.existsb (fun r => String.eqb (role_name r) UserRole_Admin)
                         userRoles in
          if isAdmin then
            mret (List.map toCachedPermission (permissions (db w)))
          else
            let permissionIds :=
              List.fold_left
                (fun (ids : list ObjectId) r =>
                   if negb (Nat.eqb (List.length (role_permissions r)) 0)
                   then (ids ++ role_permissions r)%list else ids)
                userRoles [] in
            if Nat.eqb (List.length permissionIds) 0 then mret []
            else
              mret (List.map toCachedPermission
                      (List.filter
                         (fun p => oid_in (perm_id p) permissionIds)
                         (permissions (db w))))
  end.

Definition getUserPermissions (userId : string) (now : Z)
    : M (list CachedPermission) :=
  w ← get_world;
  let fromDB :=
    perms ← getUserPermissionsFromDB userId;
    _ ← modify (set_cache
                  <[ userId := {| upc_permissions := perms;
                                  upc_timestamp := now |} ]>);
    mret perms in
  match permissionCache w !! userId with
  | Some cachedData =>
      if now - upc_timestamp cachedData <? CACHE_TTL
      then mret (upc_permissions cachedData)
      else fromDB
  | None => fromDB
  end.

(** *** utils/crypto.ts and utils/otp.ts *)

Definition hashPassword (password : string) : string :=
  createHash (password ++ PASSWORD_SECRET env).

Definition comparePassword (plainPassword hashedPassword : string) : bool :=
  String.eqb (hashPassword plainPassword) hashedPassword.

Definition encryptOTP (otp : string) : string :=
  createHmac (PASSWORD_SECRET env) otp.

(** [verifyOTP] of [utils/otp.ts] *)
Definition utils_verifyOTP (plainOtp encryptedOtp : string) : bool :=
  String.eqb (encryptOTP plainOtp) encryptedOtp.

(** 15 minutes from now *)
Definition createOTPExpiration (now : Z) : Z := now + 15 * 60 * 1000.

(** *** auth.service.ts *)

(** ASCII fragment of [String.prototype.trim]. *)
Definition is_space (c : ascii) : bool :=
  let n := N_of_ascii c in
  ((n =? 32) || (9 <=? n) && (n <=? 13))%N.

Fixpoint trimStart (s : string) : string :=
  match s with
  | EmptyString => EmptyString
  | String c r => if is_space c then trimStart r else s
  end.

Fixpoint trimEnd (s : string) : string :=
  match s with
  | EmptyString => EmptyString
  | String c r =>
      match trimEnd r with
      | EmptyString => if is_space c then EmptyString else String c EmptyString
      | r' => String c r'
      end
  end.

Definition trim (s : string) : string := trimEnd (trimStart s).

(** [email.trim().toLowerCase()] *)
Definition normalizedEmail (email : string) : string := toLowerCase (trim email).

(** [emailService.sendEmail]/[sendOTPEmail]: rethrows the transport's
    error. *)
Definition sendEmail (mail_ok : bool) : M unit :=
  if mail_ok then mret tt else throw (JsError "Error" "mail transport failed").

Definition mark_used (o : Otp) : Otp :=
  {| otp_id := otp_id o; otp_user_id := otp_user_id o; otp_code := otp_code o;
     otp_expired_at := otp_expired_at o; otp_created_at := otp_created_at o;
     otp_type := otp_type o; otp_is_used := true |}.

Definition newOtp (newId user_id : ObjectId) (plainOtp : string)
    (ty : OtpVerifyType) (now : Z) : Otp :=
  {| otp_id := newId;
     otp_user_id := user_id;
     otp_code := encryptOTP plainOtp;
     otp_expired_at := createOTPExpiration now;
     otp_created_at := now;
     otp_type := ty;
     otp_is_used := false |}.

(** [plainOtp] is the value of [generateOTP()], [newId] the [_id] the
    driver gives the inserted document. *)
Definition generateAndSendOTP (userId email : string) (ty : OtpVerifyType)
    (plainOtp : string) (newId : ObjectId) (now : Z) (mail_ok : bool)
    : M unit :=
  user_id ← liftObjectId userId;
  _ ← modify (set_otps (deleteMany (fun o => String.eqb (otp_user_id o) user_id)));
  _ ← modify (set_otps (insertOne (newOtp newId user_id plainOtp ty now)));
  sendEmail mail_ok.

Definition forgotPassword (email : string)
    (plainOtp : string) (newId : ObjectId) (now : Z) (mail_ok : bool)
    : M unit :=
  w ← get_world;
  match findOne (fun u => String.eqb (usr_email u) (normalizedEmail email))
                (users (db w)) with
  | None => throw (ErrorWithStatus MESSAGE.USER_NOT_FOUND NOT_FOUND)
  | Some user =>
      _ ← modify (set_otps
                    (deleteMany
                       (fun o => String.eqb (otp_user_id o) (usr_id user)
                                 && bool_decide (otp_type o = PasswordReset))));
      _ ← modify (set_otps
                    (insertOne (newOtp newId (usr_id user) plainOtp
                                       PasswordReset now)));
      sendEmail mail_ok
  end.

Definition verifyPasswordResetOTP (otp email : string) (now : Z)
    : M (string * string) :=
  w ← get_world;
  match findOne (fun u => String.eqb (usr_email u) (normalizedEmail email))
                (users (db w)) with
  | None => throw (ErrorWithStatus MESSAGE.USER_NOT_FOUND NOT_FOUND)
  | Some user =>
      match findOne_desc otp_created_at
              (fun o => String.eqb (otp_user_id o) (usr_id user)
                        && bool_decide (otp_type o = PasswordReset)
                        && (now <? otp_expired_at o))
              (otps (db w)) with
      | None => throw (ErrorWithStatus MESSAGE.INVALID_OTP BAD_REQUEST)
      | Some otpRecord =>
          if negb (utils_verifyOTP otp (otp_code otpRecord)) then
            throw (ErrorWithStatus MESSAGE.INVALID_OTP BAD_REQUEST)
          else
            _ ← modify (set_otps
                          (updateOne
                             (fun o => String.eqb (otp_id o) (otp_id otpRecord))
                             mark_used));
            mret (ObjectId_toString (usr_id user), usr_email user)
      end
  end.

Definition set_password (hashed : string) (now : Z) (u : User) : User :=
  {| usr_id := usr_id u; usr_email := usr_email u; usr_password := hashed;
     usr_roles := usr_roles u; usr_verify := usr_verify u;
     usr_is_removed := usr_is_removed u;
     usr_password_change_at := Some now |}.

Definition resetPassword (email password : string) (now : Z) : M bool :=
  w ← get_world;
  match findOne (fun u => String.eqb (usr_email u) email) (users (db w)) with
  | None => throw (ErrorWithStatus MESSAGE.USER_NOT_FOUND NOT_FOUND)
  | Some user =>
      if comparePassword password (usr_password user) then
        throw (ErrorWithStatus MESSAGE.NEW_PASSWORD_SAME_AS_CURRENT BAD_REQUEST)
      else
        let hashedPassword := hashPassword password in
        _ ← modify (set_users
                      (updateOne (fun u => String.eqb (usr_email u) email)
                                 (set_password hashedPassword now)));
        _ ← invalidateAllUserRefreshTokens (ObjectId_toString (usr_id user));
        user_id ← liftObjectId (ObjectId_toString (usr_id user));
        _ ← modify (set_otps
                      (deleteMany
                         (fun o => String.eqb (otp_user_id o) user_id
                                   && bool_decide (otp_type o = PasswordReset)
                                   && otp_is_used o)));
        mret true
  end.

Definition set_verified (u : User) : User :=
  {| usr_id := usr_id u; usr_email := usr_email u;
     usr_password := usr_password u; usr_roles := usr_roles u;
     usr_verify := Verified; usr_is_removed := usr_is_removed u;
     usr_password_change_at := usr_password_change_at u |}.

(** [authService.verifyOTP] *)
Definition verifyOTP (otp email : string) (now : Z) : M bool :=
  w ← get_world;
  match findOne (fun u => String.eqb (usr_email u) (normalizedEmail email))
                (users (db w)) with
  | None => throw (ErrorWithStatus MESSAGE.USER_NOT_FOUND NOT_FOUND)
  | Some user =>
      if bool_decide (usr_verify user = Verified) then
        throw (ErrorWithStatus MESSAGE.INVALID_OTP BAD_REQUEST)
      else
        match findOne_desc otp_created_at
                (fun o => String.eqb (otp_user_id o) (usr_id user)
                          && bool_decide (otp_type o = EmailVerification)
                          && (now <? otp_expired_at o)
                          && negb (otp_is_used o))
                (otps (db w)) with
        | None => throw (ErrorWithStatus MESSAGE.INVALID_OTP BAD_REQUEST)
        | Some otpRecord =>
            if negb (utils_verifyOTP otp (otp_code otpRecord)) then
              throw (ErrorWithStatus MESSAGE.INVALID_OTP BAD_REQUEST)
            else
              _ ← modify (set_otps
                            (updateOne
                               (fun o => String.eqb (otp_id o) (otp_id otpRecord))
                               mark_used));
              _ ← modify (set_users
                            (updateOne
                               (fun u => String.eqb (usr_id u) (usr_id user))
                               set_verified));
              mret true
        end
  end.

Definition resendOTP (email : string) (ty : OtpVerifyType)
    (plainOtp : string) (newId : ObjectId) (now : Z) (mail_ok : bool)
    : M unit :=
  w ← get_world;
  match findOne (fun u => String.eqb (usr_email u) (normalizedEmail email))
                (users (db w)) with
  | None => throw (ErrorWithStatus MESSAGE.USER_NOT_FOUND NOT_FOUND)
  | Some user =>
      _ ← modify (set_otps
                    (insertOne (newOtp newId (usr_id user) plainOtp ty now)));
      sendEmail mail_ok
  end.

(** The [catch] block shared by [logout] and [reissueToken]. *)
Definition rethrow_as_invalid_token {A} (e : Exn) : M A :=
  match e with
  | ErrorWithStatus _ _ => throw e
  | JsError _ _ => throw (ErrorWithStatus MESSAGE.TOKEN_INVALID UN_AUTHORIZED)
  end.

Definition logout (refreshToken : string) (now : Z) : M bool :=
  if negb (truthy refreshToken) then
    throw (ErrorWithStatus MESSAGE.TOKEN_MISSING BAD_REQUEST)
  else
    try_catch
      (w ← get_world;
       let result := validateToken w now refreshToken RefreshToken in
       if negb (valid result) then
         throw (ErrorWithStatus (or_else (error result) MESSAGE.TOKEN_INVALID)
                                UN_AUTHORIZED)
       else
         _ ← modify (invalidateToken refreshToken);
         mret true)
      rethrow_as_invalid_token.

Definition logoutFromAllDevices (userId : string) : M bool :=
  if negb (truthy userId) then
    throw (ErrorWithStatus MESSAGE.USER_ID_MISSING BAD_REQUEST)
  else
    try_catch
      (_ ← invalidateAllUserRefreshTokens userId; mret true)
      (fun _ => throw (ErrorWithStatus "Failed to logout from all devices"
                                       INTERNAL_SERVER_ERROR)).

(** [newTokenId] is the [tokenId] drawn by [generateRefreshToken]. *)
Definition reissueToken (refreshToken : string) (now : Z)
    (newTokenId : string) : M (string * string) :=
  if negb (truthy refreshToken) then
    throw (ErrorWithStatus MESSAGE.TOKEN_MISSING BAD_REQUEST)
  else
    try_catch
      (w ← get_world;
       let validationResult := validateToken w now refreshToken RefreshToken in
       if negb (valid validationResult) then
         throw (ErrorWithStatus
                  (or_else (error validationResult) MESSAGE.TOKEN_INVALID)
                  UN_AUTHORIZED)
       else
         let userId := default "" (sub <$> payload validationResult) in
         if negb (truthy userId) then
           throw (ErrorWithStatus MESSAGE.USER_ID_MISSING UN_AUTHORIZED)
         else
           user_id ← liftObjectId userId;
           match findOne (fun u => String.eqb (usr_id u) user_id
                                   && negb (usr_is_removed u))
                         (users (db w)) with
           | None => throw (ErrorWithStatus MESSAGE.USER_NOT_FOUND NOT_FOUND)
           | Some user =>
               _ ← modify (invalidateToken refreshToken);
               let accessToken :=
                 generateAccessToken userId (usr_email user) (usr_roles user) now in
               r ← generateRefreshToken userId newTokenId now;
               mret (accessToken, fst r)
           end)
      rethrow_as_invalid_token.

End Services.

(** ** Properties of the stored state that the statements speak about *)

(** Every refresh-credential row of [(tid, uid)] carries
    [is_removed = true]. *)
Definition credential_revoked (tid : string) (uid : ObjectId) (w : World) : Prop :=
  ∀ d, In d (tokens (db w)) → refresh_row tid uid d = true → tk_is_removed d = true.

(** Some refresh-credential row of [(tid, uid)] is neither removed nor
    past its [expires_at] at time [now]. *)
Definition credential_active (now : Z) (tid : string) (uid : ObjectId)
    (w : World) : bool :=
  List.existsb
    (fun d => refresh_row tid uid d && negb (tk_is_removed d)
              && (now <? tk_expires_at d))
    (tokens (db w)).

(** [token_id] values are unique among the stored rows, as values of
    [new ObjectId()] are. *)
Definition unique_token_ids (w : World) : Prop :=
  List.NoDup (List.map tk_token_id (tokens (db w))).

(** A code row that the verification lookups of purpose [ty] can still
    select for principal [uid] at time [now]. *)
Definition otp_outstanding (now : Z) (uid : ObjectId) (ty : OtpVerifyType)
    (o : Otp) : bool :=
  String.eqb (otp_user_id o) uid && bool_decide (otp_type o = ty)
  && (now <? otp_expired_at o) && negb (otp_is_used o).

(** The principal [uid] is stored and one of its roles is active and
    named Admin. *)
Definition holds_active_admin (w : World) (uid : ObjectId) : Prop :=
  ∃ user r,
    findOne (fun u => String.eqb (usr_id u) uid) (users (db w)) = Some user
    ∧ In r (db_roles (db w))
    ∧ oid_in (role_id r) (usr_roles user) = true
    ∧ role_is_active r = true
    ∧ role_name r = UserRole_Admin.

(** None of the roles of the principal [uid] is active (in particular
    when it has none, or is not stored). *)
Definition no_active_role (w : World) (uid : ObjectId) : Prop :=
  ∀ user r,
    findOne (fun u => String.eqb (usr_id u) uid) (users (db w)) = Some user →
    In r (db_roles (db w)) →
    oid_in (role_id r) (usr_roles user) = true →
    role_is_active r = false.

(** The cache holds an entry of [userId] younger than [CACHE_TTL]. *)
Definition cache_fresh (w : World) (userId : string) (now : Z) : bool :=
  match permissionCache w !! userId with
  | Some cachedData => now - upc_timestamp cachedData <? CACHE_TTL
  | None => false
  end.

(** The calls that write the [tokens] collection or the in-memory
    state.  The auth service reaches the collection through them only
    (login and registration generate, logout invalidates, a refresh
    invalidates and generates, a password change invalidates all).
    [CallRestart] is a new process on the same database: the blacklist
    and the permission cache start empty. *)
Inductive Call : Type :=
  | CallGenerateRefreshToken (userId tokenId : string) (now : Z)
  | CallInvalidateToken (token : string)
  | CallInvalidateAllUserRefreshTokens (userId : string)
  | CallCleanupExpiredTokens (now : Z)
  | CallRestart.

Definition restart (w : World) : World :=
  {| db := db w; tokenBlacklist := ∅; permissionCache := ∅ |}.

Section Runs.
Variable env : Env.
Variable jwt_sign : TokenPayload -> string -> string.
Variable jwt_decode : string -> option TokenPayload.

Definition run_call (c : Call) (w : World) : World :=
  match c with
  | CallGenerateRefreshToken userId tokenId now =>
      snd (generateRefreshToken env jwt_sign userId tokenId now w)
  | CallInvalidateToken token => invalidateToken jwt_decode token w
  | CallInvalidateAllUserRefreshTokens userId =>
      snd (invalidateAllUserRefreshTokens userId w)
  | CallCleanupExpiredTokens now => snd (cleanupExpiredTokens now w)
  | CallRestart => restart w
  end.

Definition run_calls (cs : list Call) (w : World) : World :=
  List.fold_left (fun w c => run_call c w) cs w.
End Runs.

(** No later [generateRefreshToken] draws the identifier [tid] again. *)
Definition call_fresh (tid : string) (c : Call) : Prop :=
  match c with
  | CallGenerateRefreshToken _ tokenId _ => tokenId ≠ tid
  | _ => True
  end.

(** ** A concrete deployment, for running the services *)

Module Demo.

Definition env : Env :=
  {| ACCESS_TOKEN_PRIVATE_KEY := "access-key";
     REFRESH_TOKEN_PRIVATE_KEY := "refresh-key";
     FORGOT_PASSWORD_TOKEN_PRIVATE_KEY := "forgot-key";
     OTP_SECRET := "otp-key";
     ACCESS_TOKEN_EXPIRESIN := 900;
     REFRESH_TOKEN_EXPIRESIN := 604800;
     PASSWORD_SECRET := "pepper" |}.

Definition createHash (content : string) : string := "sha:" ++ content.
Definition createHmac (key content : string) : string :=
  "hmac:" ++ key ++ ":" ++ content.

Definition alice_id : ObjectId := "aaaaaaaaaaaaaaaaaaaaaaaa".
Definition admin_role_id : ObjectId := "0000000000000000000000ad".
Definition student_role_id : ObjectId := "0000000000000000000000cd".

(** 09:00, 09:05 and a day nine days before *)
Definition t0 : Z := 1700000000000.
Definition t1 : Z := t0 + 5 * 60 * 1000.
Definition t_old : Z := t0 - 9 * 24 * 3600 * 1000.

Definition R0_id : string := "100000000000000000000000".
Definition R1_id : string := "100000000000000000000001".
Definition R2_id : string := "100000000000000000000002".

Definition alice : User :=
  {| usr_id := alice_id; usr_email := "alice@example.edu";
     usr_password := createHash ("old-password" ++ PASSWORD_SECRET env);
     usr_roles := [student_role_id]; usr_verify := Verified;
     usr_is_removed := false; usr_password_change_at := None |}.

(** The tokens in circulation: text, payload and signing key. *)
Definition issued : list (string * (TokenPayload * string)) :=
  [ ("jwt.R0", (refreshPayload env alice_id R0_id t_old, "refresh-key"));
    ("jwt.R1", (refreshPayload env alice_id R1_id t0, "refresh-key"));
    ("jwt.R2", (refreshPayload env alice_id R2_id t1, "refresh-key"));
    ("jwt.A1", (accessPayload env alice_id "alice@example.edu"
                              [student_role_id] t0, "access-key"));
    ("jwt.A2", (accessPayload env alice_id "alice@example.edu"
                              [student_role_id] t1, "access-key"));
    ("jwt.forged", (refreshPayload env alice_id R0_id t_old, "guessed-key")) ].

Definition lookup_token (token : string) : option (TokenPayload * string) :=
  snd <$> List.find (fun e => String.eqb (fst e) token) issued.

(** A table-driven codec with the behaviour of [jsonwebtoken]: a text
    that is no token is malformed, the signature is checked before the
    expiry, and a token is expired once the clock has reached [exp]. *)
Definition jwt_verify (token secret : string) (now : Z) : JwtVerify :=
  match lookup_token token with
  | None => VerifyThrows "JsonWebTokenError" "jwt malformed"
  | Some (p, key) =>
      if negb (String.eqb key secret) then
        VerifyThrows "JsonWebTokenError" "invalid signature"
      else if exp p <=? now / 1000 then
        VerifyThrows "TokenExpiredError" "jwt expired"
      else VerifyOk p
  end.

Definition jwt_decode (token : string) : option TokenPayload :=
  fst <$> lookup_token token.

Definition jwt_sign (p : TokenPayload) (key : string) : string :=
  default ""
    (fst <$> List.find
               (fun e => bool_decide (fst (snd e) = p)
                         && String.eqb (snd (snd e)) key)
               issued).

Definition row (tid token : string) (issuedAt : Z) (removed : bool) : Token :=
  {| tk_token_id := tid; tk_user_id := alice_id; tk_token := token;
     tk_type := RefreshToken;
     tk_expires_at := exp (refreshPayload env alice_id tid issuedAt) * 1000;
     tk_is_removed := removed |}.

(** Alice after she was granted the Admin role. *)
Definition alice_admin : User :=
  {| usr_id := alice_id; usr_email := "alice@example.edu";
     usr_password := usr_password alice;
     usr_roles := [student_role_id; admin_role_id]; usr_verify := Verified;
     usr_is_removed := false; usr_password_change_at := None |}.

Definition database_of (us : list User) (tks : list Token) (os : list Otp)
    : Db :=
  {| users := us;
     db_roles :=
       [ {| role_id := admin_role_id; role_name := "Admin";
            role_is_active := true; role_permissions := [] |};
         {| role_id := student_role_id; role_name := "Student";
            role_is_active := true;
            role_permissions := ["0000000000000000000000f1"] |} ];
     permissions :=
       [ {| perm_id := "0000000000000000000000f1"; perm_name := "course:read";
            perm_action := "read"; perm_subject := "course";
            perm_conditions := None |};
         {| perm_id := "0000000000000000000000f2"; perm_name := "role:manage";
            perm_action := "manage"; perm_subject := "role";
            perm_conditions := None |} ];
     tokens := tks;
     otps := os |}.

Definition database : list Token -> list Otp -> Db := database_of [alice].

(** Alice is logged in with R1; nothing is cached. *)
Definition w_login : World :=
  {| db := database [row R1_id "jwt.R1" t0 false] [];
     tokenBlacklist := ∅; permissionCache := ∅ |}.

(** R1 has been revoked in the store; the process is fresh. *)
Definition w_revoked : World :=
  {| db := database [row R1_id "jwt.R1" t0 true] [];
     tokenBlacklist := ∅; permissionCache := ∅ |}.

(** The long-expired R0 was logged out in this process. *)
Definition w_logged_out : World :=
  {| db := database [row R0_id "jwt.R0" t_old true; row R1_id "jwt.R1" t0 false] [];
     tokenBlacklist := {[ "jwt.R0" ]}; permissionCache := ∅ |}.

(** Alice now holds Admin, but her permissions were cached, empty, a
    minute before the role was granted. *)
Definition w_stale_cache : World :=
  {| db := database_of [alice_admin] [] [];
     tokenBlacklist := ∅;
     permissionCache :=
       {[ alice_id := {| upc_permissions := []; upc_timestamp := t0 |} ]} |}.

Definition otp1_id : ObjectId := "200000000000000000000001".
Definition otp2_id : ObjectId := "200000000000000000000002".

Definition minutes (n : Z) : Z := n * 60 * 1000.

(** Alice asked for a password reset at [t0]; the code mailed to her
    is 482913. *)
Definition w_reset_requested : World :=
  snd (forgotPassword env createHmac "alice@example.edu" "482913" otp1_id
         t0 true w_login).

End Demo.

(** * Further services

    The remaining functions of the token, auth and permission services,
    the authentication middleware and two utilities. *)

(** Further entries of [constants/message]. *)
Module MESSAGES.
Definition USER_INVALID_ID : string := "Invalid user ID".
Definition MISMATCH_OLD_PASSWORD : string := "Old password does not match".
Definition TOKEN_ACCESS_REQUIRED : string := "Access token is required".
Definition TOKEN_INVALID_ACCESS_TOKEN : string := "Invalid or expired access token".
Definition TOKEN_EXPIRED : string := "Token has expired".
End MESSAGES.

(** The result of [getTokenStats]; [activeByType] is the object keyed
    by the [type] strings. *)
Record TokenStats : Type := mkTokenStats {
  totalActive : Z;
  totalRemoved : Z;
  totalExpired : Z;
  activeByType : gmap string Z
}.

(** [req.user] as the authentication middleware sets it. *)
Record RequestUser : Type := mkRequestUser {
  ru_id : string;
  ru_email : string;
  ru_roles : list ObjectId
}.

(** [s.split(sep)] for a one-character separator. *)
Fixpoint split (sep : ascii) (s : string) : list string :=
  match s with
  | EmptyString => [EmptyString]
  | String c r =>
      if Ascii.eqb c sep then EmptyString :: split sep r
      else
        match split sep r with
        | [] => [String c EmptyString]
        | x :: xs => String c x :: xs
        end
  end.

(** [s.split(' ')[1]]; the one caller has checked that [s] starts with
    ['Bearer '], so the element exists. *)
Definition second_field (s : string) : string :=
  List.nth 1 (split " " s) "".

(** [s.startsWith(p)] *)
Definition startsWith (p s : string) : bool := String.prefix p s.

(** The character class [[A-Za-z0-9-_]] of [REGEX_JWT_TOKEN]. *)
Definition is_base64url (c : ascii) : bool :=
  let n := N_of_ascii c in
  ((65 <=? n) && (n <=? 90) || (97 <=? n) && (n <=? 122)
   || (48 <=? n) && (n <=? 57) || (n =? 45) || (n =? 95))%N.

Fixpoint all_base64url (s : string) : bool :=
  match s with
  | EmptyString => true
  | String c r => is_base64url c && all_base64url r
  end.

(** [REGEX_JWT_TOKEN.test(s)]: three non-empty runs of the class,
    separated by two dots. *)
Definition REGEX_JWT_TOKEN_test (s : string) : bool :=
  match split "." s with
  | [a; b; c] =>
      truthy a && truthy b && truthy c
      && all_base64url a && all_base64url b && all_base64url c
  | _ => false
  end.

(** [isValidJwtFormat] of [utils/jwt]; [MIN_JWT_LENGTH] is the number
    read from the environment. *)
Definition isValidJwtFormat (MIN_JWT_LENGTH : Z) (token : string) : bool :=
  if negb (truthy token) then false
  else if Z.of_nat (String.length token) <? MIN_JWT_LENGTH then false
  else REGEX_JWT_TOKEN_test token.

(** [validateObjectId] of [utils/route.utils]. *)
Definition validateObjectId (id : string) : bool :=
  ObjectId_isValid id
  && match newObjectId id with
     | Some o => String.eqb (ObjectId_toString o) id
     | None => false
     end.

(** [collection.countDocuments(q)] *)
Definition countDocuments {A} (q : A -> bool) (c : list A) : Z :=
  Z.of_nat (List.length (List.filter q c)).

Definition all_TokenTypes : list TokenType :=
  [AccessToken; RefreshToken; ForgotPasswordToken; OTPVerify].

Section MoreServices.

Variable env : Env.
(** [parseInt(env.FORGOT_PASSWORD_TOKEN_EXPIRESIN)] *)
Variable FORGOT_PASSWORD_TOKEN_EXPIRESIN : Z.
Variable jwt_sign : TokenPayload -> string -> string.
Variable jwt_verify : string -> string -> Z -> JwtVerify.
Variable jwt_decode : string -> option TokenPayload.
Variable createHash : string -> string.

(** *** token.service.ts, continued *)

Definition forgotPasswordPayload (userId : string) (now : Z) : TokenPayload :=
  {| sub := userId;
     type := ForgotPasswordToken;
     iat := epoch_seconds now;
     exp := epoch_seconds now + FORGOT_PASSWORD_TOKEN_EXPIRESIN;
     email := None;
     roles := None;
     tokenId := None |}.

Definition generateForgotPasswordToken (userId : string) (now : Z) : string :=
  jwt_sign (forgotPasswordPayload userId now)
           (FORGOT_PASSWORD_TOKEN_PRIVATE_KEY env).

(** The [$match] stage shared by the aggregation and [totalActive]. *)
Definition active_row (now : Z) (d : Token) : bool :=
  negb (tk_is_removed d) && (now <? tk_expires_at d).

(** The [$group] stage: one document per [type] that occurs among the
    matched rows, with the number of such rows. *)
Definition group_by_type (c : list Token) : list (TokenType * Z) :=
  List.filter (fun g => 0 <? snd g)
    (List.map
       (fun t => (t, countDocuments (fun d => bool_decide (tk_type d = t)) c))
       all_TokenTypes).

Definition getTokenStats (now : Z) (w : World) : TokenStats :=
  let activeByType := group_by_type (List.filter (active_row now) (tokens (db w))) in
  {| totalActive := countDocuments (active_row now) (tokens (db w));
     totalRemoved := countDocuments tk_is_removed (tokens (db w));
     totalExpired :=
       countDocuments (fun d => tk_expires_at d <=? now) (tokens (db w));
     activeByType :=
       List.fold_left
         (fun (acc : gmap string Z) curr =>
            <[ TokenType_value (fst curr) := snd curr ]> acc)
         activeByType ∅ |}.

(** *** auth.service.ts, continued *)

Definition generateAuthTokens (userId email : string) (tokenId : string)
    (now : Z) : M (string * string) :=
  user_id ← liftObjectId userId;
  w ← get_world;
  match findOne (fun u => String.eqb (usr_id u) user_id) (users (db w)) with
  | None => throw (ErrorWithStatus MESSAGE.USER_NOT_FOUND NOT_FOUND)
  | Some user =>
      let accessToken :=
        generateAccessToken env jwt_sign userId email (usr_roles user) now in
      r ← generateRefreshToken env jwt_sign userId tokenId now;
      mret (accessToken, fst r)
  end.

Definition set_password_only (hashed : string) (u : User) : User :=
  {| usr_id := usr_id u; usr_email := usr_email u; usr_password := hashed;
     usr_roles := usr_roles u; usr_verify := usr_verify u;
     usr_is_removed := usr_is_removed u;
     usr_password_change_at := usr_password_change_at u |}.

Definition changePassword (userId current_password new_password : string)
    : M bool :=
  if negb (ObjectId_isValid userId) then
    throw (ErrorWithStatus MESSAGES.USER_INVALID_ID BAD_REQUEST)
  else
    user_id ← liftObjectId userId;
    w ← get_world;
    match findOne (fun u => String.eqb (usr_id u) user_id) (users (db w)) with
    | None => throw (ErrorWithStatus MESSAGE.USER_NOT_FOUND NOT_FOUND)
    | Some user =>
        if negb (comparePassword env createHash current_password
                                 (usr_password user)) then
          throw (ErrorWithStatus MESSAGES.MISMATCH_OLD_PASSWORD BAD_REQUEST)
        else if comparePassword env createHash new_password (usr_password user)
        then
          throw (ErrorWithStatus MESSAGE.NEW_PASSWORD_SAME_AS_CURRENT BAD_REQUEST)
        else
          let hashedPassword := hashPassword env createHash new_password in
          user_id' ← liftObjectId userId;
          _ ← modify (set_users
                        (updateOne (fun u => String.eqb (usr_id u) user_id')
                                   (set_password_only hashedPassword)));
          _ ← invalidateAllUserRefreshTokens userId;
          mret true
    end.

(** *** permission.service.ts, continued *)

Definition includes (x : string) (l : list string) : bool :=
  List.existsb (String.eqb x) l.

Definition hasAllPermissions (userId : string)
    (requiredPermissions : list string) (now : Z) : M bool :=
  if Nat.eqb (List.length requiredPermissions) 0 then mret true
  else
    userPermissions ← getUserPermissions userId now;
    let permissionNames := List.map cp_name userPermissions in
    mret (List.forallb (fun name => includes name permissionNames)
                       requiredPermissions).

Definition hasAnyPermission (userId : string)
    (requiredPermissions : list string) (now : Z) : M bool :=
  if Nat.eqb (List.length requiredPermissions) 0 then mret true
  else
    userPermissions ← getUserPermissions userId now;
    let permissionNames := List.map cp_name userPermissions in
    mret (List.existsb (fun name => includes name permissionNames)
                       requiredPermissions).

Definition hasRoles (userId : string) (requiredRoles : list string) : M bool :=
  if Nat.eqb (List.length requiredRoles) 0 then mret true
  else
    user_id ← liftObjectId userId;
    w ← get_world;
    match findOne (fun u => String.eqb (usr_id u) user_id) (users (db w)) with
    | None => mret false
    | Some user =>
        if Nat.eqb (List.length (usr_roles user)) 0 then mret false
        else
          let userRoles :=
            List.filter
              (fun r => oid_in (role_id r) (usr_roles user) && role_is_active r)
              (db_roles (db w)) in
          let roleNames := List.map role_name userRoles in
          mret (List.existsb (fun role => includes role roleNames) requiredRoles)
    end.

(** *** middlewares/auth.middleware

    [authorization] is [req.headers.authorization]; a return is
    [next()] with [req.user] set, a throw is [next(error)]. *)

Definition requestUser (user : User) : RequestUser :=
  {| ru_id := ObjectId_toString (usr_id user);
     ru_email := usr_email user;
     ru_roles := usr_roles user |}.

Definition authMiddleware (authorization : option string) (now : Z)
    : M RequestUser :=
  let authHeader := default "" authorization in
  if negb (truthy authHeader) || negb (startsWith "Bearer " authHeader) then
    throw (ErrorWithStatus MESSAGES.TOKEN_ACCESS_REQUIRED UN_AUTHORIZED)
  else
    let accessToken := second_field authHeader in
    w ← get_world;
    let validationResult :=
      validateToken env jwt_verify w now accessToken AccessToken in
    if negb (valid validationResult) then
      if expired validationResult then
        throw (ErrorWithStatus MESSAGES.TOKEN_EXPIRED UN_AUTHORIZED)
      else
        throw (ErrorWithStatus
                 (or_else (error validationResult)
                          MESSAGES.TOKEN_INVALID_ACCESS_TOKEN)
                 UN_AUTHORIZED)
    else
      let userId := default "" (sub <$> payload validationResult) in
      if negb (truthy userId) then
        throw (ErrorWithStatus MESSAGE.USER_ID_MISSING UN_AUTHORIZED)
      else
        user_id ← liftObjectId userId;
        match findOne (fun u => String.eqb (usr_id u) user_id
                                && negb (usr_is_removed u))
                      (users (db w)) with
        | None => throw (ErrorWithStatus MESSAGE.USER_NOT_FOUND NOT_FOUND)
        | Some user => mret (requestUser user)
        end.

(** [optionalAuth] always calls [next()]; the result is [req.user]. *)
Definition optionalAuth (authorization : option string) (now : Z)
    (w : World) : option RequestUser :=
  let authHeader := default "" authorization in
  if negb (truthy authHeader) || negb (startsWith "Bearer " authHeader) then
    None
  else
    let accessToken := second_field authHeader in
    let validationResult :=
      validateToken env jwt_verify w now accessToken AccessToken in
    if negb (valid validationResult) then None
    else
      match payload validationResult with
      | None => None
      | Some p =>
          match newObjectId (sub p) with
          | None => None
          | Some user_id =>
              requestUser
                <$> findOne (fun u => String.eqb (usr_id u) user_id
                                      && negb (usr_is_removed u))
                            (users (db w))
          end
      end.

End MoreServices.

(** ** Properties of the stored state, continued *)

(** The call leaves the process running (its in-memory state is kept). *)
Definition no_restart (c : Call) : Prop :=
  match c with
  | CallRestart => False
  | _ => True
  end.

(** [d'] is the row [d], possibly with [is_removed] set; only a refresh
    row is ever marked. *)
Definition same_or_marked (d d' : Token) : Prop :=
  d' = d ∨ (d' = mark_removed d ∧ tk_type d = RefreshToken).

(** The permission [p] is listed by an active role of [user]. *)
Definition granted (w : World) (user : User) (p : Permission) : Prop :=
  ∃ r, In r (db_roles (db w))
       ∧ oid_in (role_id r) (usr_roles user) = true
       ∧ role_is_active r = true
       ∧ In (perm_id p) (role_permissions r).

(** [user] has an active role named Admin. *)
Definition is_admin (w : World) (user : User) : Prop :=
  ∃ r, In r (db_roles (db w))
       ∧ oid_in (role_id r) (usr_roles user) = true
       ∧ role_is_active r = true
       ∧ role_name r = UserRole_Admin.

(** * Properties *)

(** ** Collections *)

Lemma findOne_Some {A} (q : A -> bool) (c : list A) (d : A) :
  findOne q c = Some d → In d c ∧ q d = true.
Proof. apply find_some. Qed.

Lemma findOne_None {A} (q : A -> bool) (c : list A) :
  findOne q c = None → ∀ d, In d c → q d = false.
Proof. intros H d Hd. exact (find_none q c H d Hd). Qed.

Lemma In_insertOne {A} (d x : A) (c : list A) :
  In x (insertOne d c) ↔ In x c ∨ x = d.
Proof.
  unfold insertOne. rewrite in_app_iff. simpl. intuition congruence.
Qed.

Lemma In_updateOne {A} (q : A -> bool) (f : A -> A) (c : list A) (x : A) :
  In x (updateOne q f c) → In x c ∨ ∃ d, In d c ∧ q d = true ∧ x = f d.
Proof.
  induction c as [|a c IH]; simpl; [tauto|].
  destruct (q a) eqn:Hq; simpl.
  - intros [<-|Hx]; [right; exists a; auto | left; auto].
  - intros [<-|Hx]; [left; auto|].
    destruct (IH Hx) as [H|(d & Hd & Hqd & ->)]; [left; auto|].
    right; exists d; auto.
Qed.

Lemma In_updateMany {A} (q : A -> bool) (f : A -> A) (c : list A) (x : A) :
  In x (updateMany q f c) ↔
  ∃ d, In d c ∧ x = (if q d then f d else d).
Proof.
  unfold updateMany. rewrite in_map_iff. split.
  - intros (d & <- & Hd). exists d; auto.
  - intros (d & Hd & ->). exists d; auto.
Qed.

Lemma In_deleteMany {A} (q : A -> bool) (c : list A) (x : A) :
  In x (deleteMany q c) ↔ In x c ∧ q x = false.
Proof.
  unfold deleteMany. rewrite filter_In, negb_true_iff. tauto.
Qed.

Lemma refresh_row_spec tid uid d :
  refresh_row tid uid d = true ↔
  tk_token_id d = tid ∧ tk_user_id d = uid ∧ tk_type d = RefreshToken.
Proof.
  unfold refresh_row.
  rewrite !andb_true_iff, !String.eqb_eq, bool_decide_eq_true. tauto.
Qed.

Lemma refresh_row_mark_removed tid uid d :
  refresh_row tid uid (mark_removed d) = refresh_row tid uid d.
Proof. reflexivity. Qed.

(** [updateOne] reaches every matching row when identifiers are unique. *)
Lemma updateOne_marks_all tid uid (c : list Token) :
  List.NoDup (List.map tk_token_id c) →
  ∀ d, In d (updateOne (refresh_row tid uid) mark_removed c) →
       refresh_row tid uid d = true → tk_is_removed d = true.
Proof.
  induction c as [|a c IH]; simpl; [tauto|].
  intros Hnd d Hd Hrow. apply List.NoDup_cons_iff in Hnd as [Hna Hnd].
  destruct (refresh_row tid uid a) eqn:Ha; simpl in Hd.
  - destruct Hd as [<-|Hd]; [reflexivity|].
    exfalso. apply Hna. apply refresh_row_spec in Ha as (Ha & _).
    apply refresh_row_spec in Hrow as (Hrow & _).
    rewrite Ha, <- Hrow. now apply in_map.
  - destruct Hd as [<-|Hd]; [congruence|]. now apply IH.
Qed.

Lemma invalidateAllUserRefreshTokens_revokes w userId uid tid :
  newObjectId userId = Some uid →
  credential_revoked tid uid (snd (invalidateAllUserRefreshTokens userId w)).
Proof.
  intros Huid d. unfold invalidateAllUserRefreshTokens, liftObjectId.
  rewrite Huid. simpl. rewrite In_updateMany. intros (d0 & _ & ->) Hrow.
  destruct (_ && _) eqn:Hq; [reflexivity|].
  apply refresh_row_spec in Hrow as (_ & Hu & Ht).
  rewrite Hu, Ht, String.eqb_refl in Hq. now rewrite bool_decide_true in Hq.
Qed.

Lemma credential_revoked_not_active t tid uid s :
  credential_revoked tid uid s → credential_active t tid uid s = false.
Proof.
  intros Hrev. unfold credential_active.
  destruct (existsb _ _) eqn:Hex; [|reflexivity].
  apply existsb_exists in Hex as (d & Hd & Hq).
  apply andb_true_iff in Hq as [Hq _]. apply andb_true_iff in Hq as [Hrow Hlive].
  rewrite (Hrev d Hd Hrow) in Hlive. discriminate.
Qed.

Lemma credential_absent_not_active t tid uid s :
  ¬ In tid (List.map tk_token_id (tokens (db s))) →
  credential_active t tid uid s = false.
Proof.
  intros Habs. unfold credential_active.
  destruct (existsb _ _) eqn:Hex; [|reflexivity].
  apply existsb_exists in Hex as (d & Hd & Hq).
  apply andb_true_iff in Hq as [Hq _]. apply andb_true_iff in Hq as [Hrow _].
  apply refresh_row_spec in Hrow as (<- & _).
  exfalso. apply Habs. now apply in_map.
Qed.

Lemma updateOne_hits {A} (q : A -> bool) (f : A -> A) (c : list A) (d : A) :
  In d c → q d = true → ∃ d0, In d0 c ∧ q d0 = true ∧ In (f d0) (updateOne q f c).
Proof.
  induction c as [|a c IH]; simpl; [tauto|].
  intros Hd Hq. destruct (q a) eqn:Ha.
  - exists a. simpl. auto.
  - destruct Hd as [->|Hd]; [congruence|].
    destruct (IH Hd Hq) as (d0 & Hd0 & Hq0 & Hin). exists d0. simpl. auto.
Qed.

Lemma findOne_In {A} (q : A -> bool) (c : list A) (d : A) :
  In d c → q d = true → ∃ d', findOne q c = Some d'.
Proof.
  intros Hd Hq. unfold findOne. destruct (find q c) as [d'|] eqn:Hf; [eauto|].
  rewrite (find_none q c Hf d Hd) in Hq. discriminate.
Qed.

Lemma ObjectId_valid_truthy s uid : newObjectId s = Some uid → truthy s = true.
Proof.
  unfold newObjectId, ObjectId_isValid. destruct s; [discriminate|reflexivity].
Qed.

Section Properties.

#[local] Set Default Proof Using "Type".

Context (env : Env)
        (jwt_sign : TokenPayload -> string -> string)
        (jwt_verify : string -> string -> Z -> JwtVerify)
        (jwt_decode : string -> option TokenPayload).

Local Abbreviation validateToken := (validateToken env jwt_verify).
Local Abbreviation invalidateToken := (invalidateToken jwt_decode).
Local Abbreviation generateRefreshToken := (generateRefreshToken env jwt_sign).
Local Abbreviation generateAccessToken := (generateAccessToken env jwt_sign).
Local Abbreviation run_call := (run_call env jwt_sign jwt_decode).
Local Abbreviation run_calls := (run_calls env jwt_sign jwt_decode).
Local Abbreviation reissueToken :=
  (reissueToken env jwt_sign jwt_verify jwt_decode).

(** ** Revocation is durable *)

Lemma invalidateToken_revokes w token p uid :
  jwt_decode token = Some p →
  truthy_opt (tokenId p) = true → truthy (sub p) = true →
  type p = RefreshToken → newObjectId (sub p) = Some uid →
  unique_token_ids w →
  credential_revoked (default "" (tokenId p)) uid (invalidateToken token w).
Proof.
  intros Hdec Htid Hsub Hty Huid Hnd. unfold invalidateToken.
  rewrite Hdec, Htid, Hsub, Hty, Huid. simpl.
  intros d Hd Hrow. simpl in Hd.
  eapply updateOne_marks_all; [exact Hnd|exact Hd|exact Hrow].
Qed.

Lemma run_call_keeps_revoked tid uid c w :
  call_fresh tid c →
  credential_revoked tid uid w → credential_revoked tid uid (run_call c w).
Proof.
  intros Hfresh Hrev d. destruct c as [userId tokenId now|token|userId|now|];
    simpl.
  - unfold generateRefreshToken, liftObjectId.
    destruct (newObjectId userId); simpl; [|apply Hrev].
    rewrite In_insertOne. intros [Hd| ->]; [now apply Hrev|].
    intros Hrow. apply refresh_row_spec in Hrow as (Hrow & _).
    simpl in *. congruence.
  - unfold invalidateToken.
    assert (Hbl : ∀ f, credential_revoked tid uid (set_blacklist f w))
      by (intros f; exact Hrev).
    destruct (jwt_decode token) as [p|]; [|apply Hbl].
    destruct (_ && _); [|apply Hbl].
    destruct (newObjectId (sub p)); [|apply Hbl].
    simpl. intros Hd Hrow. apply In_updateOne in Hd as [Hd|(d0 & Hd & _ & ->)].
    + now apply Hrev.
    + reflexivity.
  - unfold invalidateAllUserRefreshTokens, liftObjectId.
    destruct (newObjectId userId); simpl; [|apply Hrev].
    rewrite In_updateMany. intros (d0 & Hd & ->) Hrow.
    destruct (_ && _); [reflexivity|]. now apply Hrev.
  - rewrite In_deleteMany. intros [Hd _]. now apply Hrev.
  - apply Hrev.
Qed.

Lemma run_calls_keep_revoked tid uid cs w :
  Forall (call_fresh tid) cs →
  credential_revoked tid uid w → credential_revoked tid uid (run_calls cs w).
Proof.
  intros Hfresh. revert w. induction Hfresh as [|c cs Hc _ IH]; intros w Hrev.
  - exact Hrev.
  - simpl. apply IH. now apply run_call_keeps_revoked.
Qed.

(** The lookup of [validateToken] finds no row of a revoked credential,
    whatever the blacklist holds. *)
Lemma validateToken_revoked w now token p :
  (∀ secret t p', jwt_verify token secret t = VerifyOk p' → p' = p) →
  (truthy_opt (tokenId p) = true → truthy (sub p) = true →
   type p = RefreshToken →
   ∀ uid, newObjectId (sub p) = Some uid →
          credential_revoked (default "" (tokenId p)) uid w) →
  valid (validateToken w now token RefreshToken) = false.
Proof.
  intros Hver Hrev. unfold validateToken.
  destruct (bool_decide _); [reflexivity|].
  destruct (negb _); [reflexivity|].
  destruct (jwt_verify _ _ _) as [p'|name message] eqn:Hv.
  2:{ unfold validateToken_catch. now destruct (String.eqb _ _). }
  apply Hver in Hv as ->.
  destruct (bool_decide (type p = RefreshToken)) eqn:Hty; [|reflexivity].
  apply bool_decide_eq_true in Hty. simpl.
  destruct (truthy_opt (tokenId p)) eqn:Htid; [|reflexivity].
  destruct (truthy (sub p)) eqn:Hsub; [|reflexivity]. simpl.
  destruct (newObjectId (sub p)) as [uid|] eqn:Huid.
  2:{ unfold validateToken_catch. now destruct (String.eqb _ _). }
  destruct (findOne _ _) as [d|] eqn:Hfind; [|reflexivity].
  exfalso. apply findOne_Some in Hfind as [Hd Hq].
  apply andb_true_iff in Hq as [Hrow Hlive].
  rewrite (Hrev eq_refl eq_refl Hty uid eq_refl d Hd Hrow) in Hlive.
  discriminate.
Qed.

(** C1.  Once [invalidateToken] (on the token) or
    [invalidateAllUserRefreshTokens] (on its subject) has run, every
    later [validateToken] of that refresh token with expected type
    [RefreshToken] is invalid, after any further token-store calls and
    also in a fresh process whose blacklist is empty: the lookup itself
    excludes rows with [is_removed = true]. *)
Theorem revoked_refresh_token_never_validates
    (w : World) (token : string) (p : TokenPayload)
    (revoke : Call) (later : list Call) (now : Z) :
  jwt_decode token = Some p →
  (∀ secret t p', jwt_verify token secret t = VerifyOk p' → p' = p) →
  unique_token_ids w →
  revoke = CallInvalidateToken token
    ∨ revoke = CallInvalidateAllUserRefreshTokens (sub p) →
  Forall (call_fresh (default "" (tokenId p))) later →
  let w' := run_calls later (run_call revoke w) in
  valid (validateToken w' now token RefreshToken) = false
  ∧ valid (validateToken (restart w') now token RefreshToken) = false.
Proof.
  intros Hdec Hver Hnd Hrevoke Hfresh w'.
  assert (Hrev : truthy_opt (tokenId p) = true → truthy (sub p) = true →
                 type p = RefreshToken →
                 ∀ uid, newObjectId (sub p) = Some uid →
                        credential_revoked (default "" (tokenId p)) uid w').
  { intros Htid Hsub Hty uid Huid. apply run_calls_keep_revoked; [exact Hfresh|].
    destruct Hrevoke as [-> | ->]; simpl.
    - now apply invalidateToken_revokes.
    - now apply invalidateAllUserRefreshTokens_revokes. }
  split; apply validateToken_revoked with (p := p); auto.
Qed.

(** ** Rotation *)

(** What a successful validation of a refresh token has checked. *)
Lemma validateToken_refresh_valid w now token :
  valid (validateToken w now token RefreshToken) = true →
  ∃ p uid d,
    validateToken w now token RefreshToken
      = {| valid := true; expired := false; payload := Some p; error := None |}
    ∧ (token ∉ tokenBlacklist w)
    ∧ jwt_verify token (REFRESH_TOKEN_PRIVATE_KEY env) now = VerifyOk p
    ∧ type p = RefreshToken
    ∧ truthy_opt (tokenId p) = true ∧ truthy (sub p) = true
    ∧ newObjectId (sub p) = Some uid
    ∧ In d (tokens (db w))
    ∧ refresh_row (default "" (tokenId p)) uid d = true
    ∧ tk_is_removed d = false.
Proof.
  unfold validateToken.
  destruct (bool_decide (token ∈ tokenBlacklist w)) eqn:Hbl; [discriminate|].
  apply bool_decide_eq_false in Hbl.
  destruct (negb _); [discriminate|]. simpl.
  destruct (jwt_verify _ _ _) as [p|name message] eqn:Hv.
  2:{ unfold validateToken_catch. destruct (String.eqb _ _); discriminate. }
  destruct (bool_decide (type p = RefreshToken)) eqn:Hty; [|discriminate].
  apply bool_decide_eq_true in Hty. simpl.
  destruct (truthy_opt (tokenId p)) eqn:Htid; [|discriminate].
  destruct (truthy (sub p)) eqn:Hsub; [|discriminate]. simpl.
  destruct (newObjectId (sub p)) as [uid|] eqn:Huid.
  2:{ unfold validateToken_catch. destruct (String.eqb _ _); discriminate. }
  destruct (findOne _ _) as [d|] eqn:Hfind; [|discriminate].
  intros _. apply findOne_Some in Hfind as [Hd Hq].
  apply andb_true_iff in Hq as [Hrow Hlive].
  apply negb_true_iff in Hlive.
  exists p, uid, d. repeat split; assumption.
Qed.

(** The path of a [reissueToken] call that returns. *)
Lemma reissueToken_Returns w w' refreshToken now newTokenId r :
  reissueToken refreshToken now newTokenId w = (Returns r, w') →
  ∃ p uid d user,
    jwt_verify refreshToken (REFRESH_TOKEN_PRIVATE_KEY env) now = VerifyOk p
    ∧ type p = RefreshToken
    ∧ truthy_opt (tokenId p) = true ∧ truthy (sub p) = true
    ∧ newObjectId (sub p) = Some uid
    ∧ In d (tokens (db w))
    ∧ refresh_row (default "" (tokenId p)) uid d = true
    ∧ tk_is_removed d = false
    ∧ In user (users (db w))
    ∧ generateRefreshToken (sub p) newTokenId now
        (invalidateToken refreshToken w)
      = (Returns (snd r, newTokenId), w')
    ∧ fst r = generateAccessToken (sub p) (usr_email user) (usr_roles user) now.
Proof.
  unfold reissueToken.
  destruct (negb (truthy refreshToken)); [discriminate|].
  unfold try_catch, mbind, M_bind, bind, get_world.
  destruct (valid (validateToken w now refreshToken RefreshToken)) eqn:Hvalid.
  2:{ simpl. discriminate. }
  destruct (validateToken_refresh_valid _ _ _ Hvalid)
    as (p & uid & d & -> & _ & Hv & Hty & Htid & Hsub & Huid & Hd & Hrow & Hlive).
  simpl. rewrite Hsub. simpl. unfold liftObjectId. rewrite Huid. simpl.
  destruct (findOne _ (users (db w))) as [user|] eqn:Huser; [|discriminate].
  apply findOne_Some in Huser as [Huser _].
  destruct (generateRefreshToken _ _ _ _) as [[[tok tid]|e] w2] eqn:Hgen;
    [|destruct e; discriminate].
  unfold mret, M_ret, ret. simpl.
  intros [= <- <-]. exists p, uid, d, user.
  assert (tid = newTokenId) as ->.
  { revert Hgen. unfold generateRefreshToken, liftObjectId. rewrite Huid.
    simpl. now intros [= _ <- _]. }
  repeat split; assumption.
Qed.

(** A presented token that validates, for a stored principal that is not
    removed, is rotated: the call returns. *)
Lemma reissueToken_succeeds w refreshToken now newTokenId p uid user :
  truthy refreshToken = true →
  validateToken w now refreshToken RefreshToken
    = {| valid := true; expired := false; payload := Some p; error := None |} →
  newObjectId (sub p) = Some uid →
  findOne (fun u => String.eqb (usr_id u) uid && negb (usr_is_removed u))
          (users (db w)) = Some user →
  fst (reissueToken refreshToken now newTokenId w)
  = Returns (generateAccessToken (sub p) (usr_email user) (usr_roles user) now,
             jwt_sign (refreshPayload env (sub p) newTokenId now)
                      (REFRESH_TOKEN_PRIVATE_KEY env)).
Proof.
  intros Htok Hvalid Huid Huser. unfold reissueToken. rewrite Htok. simpl.
  unfold try_catch, mbind, M_bind, bind, get_world. rewrite Hvalid. simpl.
  rewrite (ObjectId_valid_truthy _ _ Huid). simpl.
  unfold liftObjectId at 1. rewrite Huid. simpl. rewrite Huser. simpl.
  unfold generateRefreshToken, liftObjectId, mbind, M_bind, bind.
  rewrite Huid. reflexivity.
Qed.


(** ** Failures of [reissueToken] *)

(** C4 (amended).  When [validateToken] rejects the presented refresh
    token, for whatever reason, [reissueToken] throws an
    [ErrorWithStatus] with the one status [UN_AUTHORIZED] and writes
    nothing; the message is the reason [validateToken] reported
    (['Invalid token'] when it reported none), so different reasons
    give different messages. *)
Theorem reissueToken_rejection_status
    (w : World) (refreshToken : string) (now : Z) (newTokenId : string) :
  truthy refreshToken = true →
  valid (validateToken w now refreshToken RefreshToken) = false →
  reissueToken refreshToken now newTokenId w
  = (Throws (ErrorWithStatus
               (or_else (error (validateToken w now refreshToken RefreshToken))
                        MESSAGE.TOKEN_INVALID)
               UN_AUTHORIZED),
     w).
Proof.
  intros Htok Hinvalid. unfold reissueToken. rewrite Htok. simpl.
  unfold try_catch, mbind, M_bind, bind, get_world.
  rewrite Hinvalid. reflexivity.
Qed.

(** ** Round trip and expiry *)


(** The [expired] flag of a validation result is never set: every
    rejection goes through [invalidToken]. *)
Lemma validateToken_expired_flag w now token expectedType :
  expired (validateToken w now token expectedType) = false.
Proof.
  unfold validateToken, validateToken_catch.
  repeat match goal with
         | |- context [match ?x with _ => _ end] => destruct x
         end; reflexivity.
Qed.


End Properties.

(** ** One-time codes and password reset *)

Lemma findOne_updateOne_by_id (q : User -> bool) (f : User -> User)
    (c : list User) (u : User) :
  List.NoDup (List.map usr_id c) →
  (∀ x, q (f x) = q x) →
  findOne q c = Some u →
  findOne q (updateOne (fun x => String.eqb (usr_id x) (usr_id u)) f c)
  = Some (f u).
Proof.
  intros Hnd Hq. induction c as [|a c IH]; simpl; [discriminate|].
  apply List.NoDup_cons_iff in Hnd as [Hna Hnd].
  destruct (q a) eqn:Ha.
  - intros [= ->]. rewrite String.eqb_refl. simpl. now rewrite Hq, Ha.
  - intros Hu. destruct (String.eqb (usr_id a) (usr_id u)) eqn:Hid.
    + exfalso. apply Hna. apply String.eqb_eq in Hid. rewrite Hid.
      apply in_map. now apply (find_some _ _ Hu).
    + simpl. rewrite Ha. now apply IH.
Qed.

Lemma findOne_desc_updateOne {A} (key : A -> Z) (q q' : A -> bool) (f : A -> A)
    (c : list A) :
  (∀ x, key (f x) = key x) → (∀ x, q (f x) = q x) →
  match findOne_desc key q c with
  | None => findOne_desc key q (updateOne q' f c) = None
  | Some d => findOne_desc key q (updateOne q' f c) = Some d
              ∨ findOne_desc key q (updateOne q' f c) = Some (f d)
  end.
Proof.
  intros Hkey Hq. induction c as [|a c IH]; simpl; [reflexivity|].
  destruct (q' a) eqn:Hq'a; simpl.
  - rewrite Hq, Hkey. destruct (q a).
    + destruct (findOne_desc key q c) as [d'|]; [|now right].
      destruct (key a <? key d'); [now left|now right].
    + destruct (findOne_desc key q c); [now left|reflexivity].
  - destruct (q a).
    + destruct (findOne_desc key q c) as [d'|].
      * destruct IH as [-> | ->]; [|rewrite Hkey];
          (destruct (key a <? key d'); [|now left]); [now left|now right].
      * rewrite IH. now left.
    + exact IH.
Qed.

Section OtpProperties.

#[local] Set Default Proof Using "Type".

Context (env : Env)
        (createHash : string -> string)
        (createHmac : string -> string -> string).

Local Abbreviation newOtp := (newOtp env createHmac).
Local Abbreviation generateAndSendOTP := (generateAndSendOTP env createHmac).
Local Abbreviation verifyOTP := (verifyOTP env createHmac).
Local Abbreviation verifyPasswordResetOTP :=
  (verifyPasswordResetOTP env createHmac).
Local Abbreviation utils_verifyOTP := (utils_verifyOTP env createHmac).
Local Abbreviation resetPassword := (resetPassword env createHash).
Local Abbreviation comparePassword := (comparePassword env createHash).

(** C10.  [generateAndSendOTP] first deletes every stored code of the
    principal, whatever its purpose (the filter is [user_id] alone),
    and then inserts the new code: afterwards the new code is the only
    code of the principal, and the codes of other principals are as
    before.  The writes are made whether or not the mail is sent. *)
Theorem generateAndSendOTP_deletes_all_codes
    (w w' : World) (userId email : string) (ty : OtpVerifyType)
    (plainOtp : string) (newId uid : ObjectId) (now : Z) (mail_ok : bool)
    (out : Outcome unit) :
  newObjectId userId = Some uid →
  generateAndSendOTP userId email ty plainOtp newId now mail_ok w = (out, w') →
  let fresh := newOtp newId uid plainOtp ty now in
  otps (db w')
  = insertOne fresh
      (deleteMany (fun o => String.eqb (otp_user_id o) uid) (otps (db w)))
  ∧ (∀ o, In o (otps (db w')) → otp_user_id o = uid → o = fresh)
  ∧ (∀ o, In o (otps (db w)) → otp_user_id o = uid → o ≠ fresh →
          ¬ In o (otps (db w')))
  ∧ (∀ o, otp_user_id o ≠ uid →
          (In o (otps (db w')) ↔ In o (otps (db w)))).
Proof.
  intros Huid Hrun fresh.
  assert (Hotps : otps (db w')
                  = insertOne fresh
                      (deleteMany (fun o => String.eqb (otp_user_id o) uid)
                                  (otps (db w)))).
  { revert Hrun. unfold generateAndSendOTP, liftObjectId, mbind, M_bind, bind.
    rewrite Huid. simpl. unfold sendEmail.
    destruct mail_ok; intros [= _ <-]; reflexivity. }
  assert (Honly : ∀ o, In o (otps (db w')) → otp_user_id o = uid → o = fresh).
  { intros o. rewrite Hotps, In_insertOne, In_deleteMany.
    intros [[_ Hq]|Ho] Hu; [|exact Ho].
    rewrite Hu, String.eqb_refl in Hq. discriminate. }
  split; [exact Hotps|]. split; [exact Honly|]. split.
  - intros o _ Hu Hne Hin. apply Hne. now apply Honly.
  - intros o Hu. rewrite Hotps, In_insertOne, In_deleteMany. split.
    + intros [[Hin _]|Ho]; [exact Hin|]. exfalso. apply Hu. now rewrite Ho.
    + intros Hin. left. split; [exact Hin|].
      apply String.eqb_neq. exact Hu.
Qed.

(** The email-verification path is single-use: after a success the
    account is verified (and the code marked used), and every further
    [verifyOTP] for that address is refused. *)
Lemma verifyOTP_consumes (w w' : World) (otp email : string) (now : Z)
    (b : bool) :
  List.NoDup (List.map usr_id (users (db w))) →
  verifyOTP otp email now w = (Returns b, w') →
  ∀ otp' now',
    verifyOTP otp' email now' w'
    = (Throws (ErrorWithStatus MESSAGE.INVALID_OTP BAD_REQUEST), w').
Proof.
  intros Hnd Hrun otp' now'. revert Hrun.
  unfold verifyOTP at 1, mbind, M_bind, bind, get_world.
  destruct (findOne _ (users (db w))) as [user|] eqn:Huser; [|discriminate].
  destruct (bool_decide (usr_verify user = Verified)); [discriminate|].
  destruct (findOne_desc _ _ _) as [otpRecord|]; [|discriminate].
  destruct (negb _); [discriminate|].
  simpl. intros [= _ <-].
  unfold verifyOTP, mbind, M_bind, bind, get_world. simpl.
  rewrite (findOne_updateOne_by_id
             (fun u => String.eqb (usr_email u) (normalizedEmail email))
             set_verified _ user Hnd (fun _ => eq_refl) Huser).
  reflexivity.
Qed.

(** The password-reset path is not: whenever [verifyPasswordResetOTP]
    accepts a code, it accepts the same code again on the state it left. *)
Lemma verifyPasswordResetOTP_replay (w w' : World) (otp email : string)
    (now : Z) (r : string * string) :
  verifyPasswordResetOTP otp email now w = (Returns r, w') →
  fst (verifyPasswordResetOTP otp email now w') = Returns r.
Proof.
  unfold verifyPasswordResetOTP, mbind, M_bind, bind, get_world.
  destruct (findOne _ (users (db w))) as [user|] eqn:Huser; [|discriminate].
  set (q := fun o : Otp => _).
  destruct (findOne_desc otp_created_at q (otps (db w))) as [o|] eqn:Ho;
    [|discriminate].
  destruct (utils_verifyOTP otp (otp_code o)) eqn:Hcode; [|discriminate].
  simpl. intros [= <- <-]. simpl. rewrite Huser.
  pose proof (findOne_desc_updateOne otp_created_at q
                (fun x => String.eqb (otp_id x) (otp_id o)) mark_used
                (otps (db w)) (fun _ => eq_refl) (fun _ => eq_refl)) as Hupd.
  rewrite Ho in Hupd. subst q.
  destruct Hupd as [Hupd | Hupd]; rewrite Hupd; simpl; now rewrite Hcode.
Qed.

(** [forgotPassword] replaces the principal's password-reset codes by
    the new one; [resendOTP] only appends the new one. *)
Lemma forgotPassword_replaces_reset_codes
    (w w' : World) (email plainOtp : string) (newId : ObjectId) (now : Z)
    (mail_ok : bool) (out : Outcome unit) (user : User) :
  findOne (fun u => String.eqb (usr_email u) (normalizedEmail email))
          (users (db w)) = Some user →
  forgotPassword env createHmac email plainOtp newId now mail_ok w = (out, w') →
  otps (db w')
  = insertOne (newOtp newId (usr_id user) plainOtp PasswordReset now)
      (deleteMany (fun o => String.eqb (otp_user_id o) (usr_id user)
                            && bool_decide (otp_type o = PasswordReset))
                  (otps (db w))).
Proof.
  intros Huser. unfold forgotPassword, mbind, M_bind, bind, get_world.
  rewrite Huser. simpl. unfold sendEmail.
  destruct mail_ok; intros [= _ <-]; reflexivity.
Qed.

Lemma resendOTP_only_inserts
    (w w' : World) (email : string) (ty : OtpVerifyType) (plainOtp : string)
    (newId : ObjectId) (now : Z) (mail_ok : bool) (out : Outcome unit)
    (user : User) :
  findOne (fun u => String.eqb (usr_email u) (normalizedEmail email))
          (users (db w)) = Some user →
  resendOTP env createHmac email ty plainOtp newId now mail_ok w = (out, w') →
  otps (db w')
  = insertOne (newOtp newId (usr_id user) plainOtp ty now) (otps (db w)).
Proof.
  intros Huser. unfold resendOTP, mbind, M_bind, bind, get_world.
  rewrite Huser. simpl. unfold sendEmail.
  destruct mail_ok; intros [= _ <-]; reflexivity.
Qed.

(** [resetPassword] refuses the current password and writes nothing. *)
Lemma resetPassword_rejects_current_password
    (w : World) (email password : string) (now : Z) (user : User) :
  findOne (fun u => String.eqb (usr_email u) email) (users (db w)) = Some user →
  comparePassword password (usr_password user) = true →
  resetPassword email password now w
  = (Throws (ErrorWithStatus MESSAGE.NEW_PASSWORD_SAME_AS_CURRENT BAD_REQUEST),
     w).
Proof.
  intros Huser Hsame. unfold resetPassword, mbind, M_bind, bind, get_world.
  rewrite Huser, Hsame. reflexivity.
Qed.

(** A successful [resetPassword] marks every refresh-token row of the
    principal removed, and deletes the principal's password-reset
    codes that are already used, and only those. *)
Lemma resetPassword_Returns
    (w w' : World) (email password : string) (now : Z) (b : bool) (user : User) :
  findOne (fun u => String.eqb (usr_email u) email) (users (db w)) = Some user →
  newObjectId (usr_id user) = Some (usr_id user) →
  resetPassword email password now w = (Returns b, w') →
  comparePassword password (usr_password user) = false
  ∧ (∀ d, In d (tokens (db w')) → tk_user_id d = usr_id user →
          tk_type d = RefreshToken → tk_is_removed d = true)
  ∧ otps (db w')
    = deleteMany
        (fun o => String.eqb (otp_user_id o) (usr_id user)
                  && bool_decide (otp_type o = PasswordReset)
                  && otp_is_used o)
        (otps (db w)).
Proof.
  intros Huser Hid. unfold resetPassword, mbind, M_bind, bind, get_world.
  rewrite Huser.
  destruct (comparePassword password (usr_password user)) eqn:Hcmp;
    [discriminate|].
  unfold invalidateAllUserRefreshTokens, liftObjectId, mbind, M_bind, bind,
    ObjectId_toString.
  rewrite Hid. simpl. intros [= _ <-]. simpl.
  split; [reflexivity|]. split; [|reflexivity].
  intros d. rewrite In_updateMany. intros (d0 & _ & ->) Hu Ht.
  destruct (_ && _) eqn:Hq; [reflexivity|].
  rewrite Hu, Ht, String.eqb_refl in Hq. now rewrite bool_decide_true in Hq.
Qed.

End OtpProperties.

(** ** Effective permissions *)

Lemma getUserPermissionsFromDB_admin w userId uid :
  newObjectId userId = Some uid →
  holds_active_admin w uid →
  getUserPermissionsFromDB userId w
  = (Returns (List.map toCachedPermission (permissions (db w))), w).
Proof.
  intros Huid (user & r & Hu & Hr & Hin & Hact & Hname).
  unfold getUserPermissionsFromDB, liftObjectId, mbind, M_bind, bind, get_world.
  rewrite Huid. simpl. rewrite Hu.
  destruct (usr_roles user) as [|o os] eqn:Hroles; [discriminate|].
  simpl Nat.eqb. cbv iota.
  set (userRoles := List.filter _ (db_roles (db w))).
  assert (Hmem : In r userRoles).
  { apply filter_In. split; [exact Hr|]. now rewrite Hin, Hact. }
  destruct userRoles as [|r0 rs] eqn:Hur; [destruct Hmem|].
  simpl Nat.eqb. cbv iota.
  replace (existsb _ (r0 :: rs)) with true; [reflexivity|].
  symmetry. apply existsb_exists. exists r. split; [exact Hmem|].
  rewrite Hname. apply String.eqb_refl.
Qed.

Lemma getUserPermissionsFromDB_roleless w userId uid :
  newObjectId userId = Some uid →
  no_active_role w uid →
  getUserPermissionsFromDB userId w = (Returns [], w).
Proof.
  intros Huid Hnone.
  unfold getUserPermissionsFromDB, liftObjectId, mbind, M_bind, bind, get_world.
  rewrite Huid. simpl.
  destruct (findOne _ (users (db w))) as [user|] eqn:Hu; [|reflexivity].
  destruct (Nat.eqb _ 0); [reflexivity|].
  set (userRoles := List.filter _ (db_roles (db w))).
  destruct userRoles as [|r0 rs] eqn:Hur; [reflexivity|].
  exfalso. assert (Hmem : In r0 userRoles) by (rewrite Hur; now left).
  apply filter_In in Hmem as [Hr Hq]. apply andb_true_iff in Hq as [Hin Hact].
  rewrite (Hnone user r0 Hu Hr Hin) in Hact. discriminate.
Qed.

Lemma getUserPermissions_miss w userId now :
  cache_fresh w userId now = false →
  fst (getUserPermissions userId now w) = fst (getUserPermissionsFromDB userId w).
Proof.
  intros Hstale. unfold cache_fresh in Hstale.
  unfold getUserPermissions, mbind, M_bind, bind, get_world.
  destruct (permissionCache w !! userId) as [c|]; [rewrite Hstale|];
    destruct (getUserPermissionsFromDB userId w) as [[a|e] w']; reflexivity.
Qed.

Lemma getUserPermissions_hit w userId now c :
  permissionCache w !! userId = Some c →
  now - upc_timestamp c < CACHE_TTL →
  getUserPermissions userId now w = (Returns (upc_permissions c), w).
Proof.
  intros Hc Hyoung.
  unfold getUserPermissions, mbind, M_bind, bind, get_world. rewrite Hc.
  apply Z.ltb_lt in Hyoung. rewrite Hyoung. reflexivity.
Qed.

(** C7 (amended).  [getUserPermissionsFromDB] returns the whole
    permission catalog for a principal with an active role named Admin
    and the empty list for a principal none of whose roles is active;
    [getUserPermissions] returns the same whenever the cache holds no
    entry of the principal younger than [CACHE_TTL], and otherwise
    returns the cached list as it is. *)
Theorem getUserPermissions_admin_and_roleless
    (w : World) (userId : string) (uid : ObjectId) (now : Z) :
  newObjectId userId = Some uid →
  (holds_active_admin w uid →
   fst (getUserPermissionsFromDB userId w)
   = Returns (List.map toCachedPermission (permissions (db w))))
  ∧ (no_active_role w uid →
     fst (getUserPermissionsFromDB userId w) = Returns [])
  ∧ (cache_fresh w userId now = false →
     fst (getUserPermissions userId now w)
     = fst (getUserPermissionsFromDB userId w))
  ∧ (∀ c, permissionCache w !! userId = Some c →
          now - upc_timestamp c < CACHE_TTL →
          fst (getUserPermissions userId now w) = Returns (upc_permissions c)).
Proof.
  intros Huid. repeat split.
  - intros Hadmin. now rewrite (getUserPermissionsFromDB_admin _ _ _ Huid Hadmin).
  - intros Hnone. now rewrite (getUserPermissionsFromDB_roleless _ _ _ Huid Hnone).
  - apply getUserPermissions_miss.
  - intros c Hc Hyoung. now rewrite (getUserPermissions_hit _ _ _ _ Hc Hyoung).
Qed.

(** ** Instances on the concrete deployment *)

Lemma Demo_verify_reads_payload token p :
  Demo.jwt_decode token = Some p →
  ∀ secret t p', Demo.jwt_verify token secret t = VerifyOk p' → p' = p.
Proof.
  unfold Demo.jwt_decode, Demo.jwt_verify. intros Hdec secret t p'.
  destruct (Demo.lookup_token token) as [[q key]|]; [|discriminate].
  simpl in Hdec. destruct (negb _); [discriminate|].
  destruct (_ <=? _); [discriminate|]. congruence.
Qed.

Lemma revoked_refresh_token_never_validates_witness :
  valid (validateToken Demo.env Demo.jwt_verify
           (restart
              (run_calls Demo.env Demo.jwt_sign Demo.jwt_decode
                 [CallGenerateRefreshToken Demo.alice_id Demo.R2_id Demo.t1]
                 (run_call Demo.env Demo.jwt_sign Demo.jwt_decode
                    (CallInvalidateToken "jwt.R1") Demo.w_login)))
           (Demo.t1 + 60000) "jwt.R1" RefreshToken) = false.
Proof.
  refine (proj2 (revoked_refresh_token_never_validates
                   Demo.env Demo.jwt_sign Demo.jwt_verify Demo.jwt_decode
                   Demo.w_login "jwt.R1"
                   (refreshPayload Demo.env Demo.alice_id Demo.R1_id Demo.t0)
                   (CallInvalidateToken "jwt.R1")
                   [CallGenerateRefreshToken Demo.alice_id Demo.R2_id Demo.t1]
                   (Demo.t1 + 60000) _ _ _ _ _)).
  - reflexivity.
  - now apply Demo_verify_reads_payload.
  - repeat constructor. simpl. tauto.
  - left. reflexivity.
  - repeat constructor. simpl. discriminate.
Defined.


(** Counterexample to C4 as stated: on one and the same store, a revoked,
    an expired and a malformed presentation are rejected with three
    different messages. *)
Lemma reissueToken_failures_distinguishable :
  let run token :=
    fst (reissueToken Demo.env Demo.jwt_sign Demo.jwt_verify Demo.jwt_decode
           token Demo.t1 Demo.R2_id Demo.w_revoked) in
  run "jwt.R1"
    = Throws (ErrorWithStatus "Token has been revoked or does not exist"
                              UN_AUTHORIZED)
  ∧ run "jwt.R0" = Throws (ErrorWithStatus "Token has expired" UN_AUTHORIZED)
  ∧ run "not-a-jwt" = Throws (ErrorWithStatus "jwt malformed" UN_AUTHORIZED)
  ∧ run "jwt.R1" ≠ run "jwt.R0".
Proof.
  vm_compute. repeat split; discriminate.
Qed.

Lemma reissueToken_rejection_status_witness :
  reissueToken Demo.env Demo.jwt_sign Demo.jwt_verify Demo.jwt_decode
    "jwt.R1" Demo.t1 Demo.R2_id Demo.w_revoked
  = (Throws (ErrorWithStatus "Token has been revoked or does not exist"
                             UN_AUTHORIZED),
     Demo.w_revoked).
Proof.
  exact (reissueToken_rejection_status
           Demo.env Demo.jwt_sign Demo.jwt_verify Demo.jwt_decode
           Demo.w_revoked "jwt.R1" Demo.t1 Demo.R2_id eq_refl eq_refl).
Defined.




(** Counterexample to C7 as stated: Alice holds the active Admin role,
    but a cache entry one minute old still answers for her. *)
Lemma getUserPermissions_stale_cache :
  holds_active_admin Demo.w_stale_cache Demo.alice_id
  ∧ fst (getUserPermissions Demo.alice_id (Demo.t0 + 60000) Demo.w_stale_cache)
    = Returns []
  ∧ List.map toCachedPermission (permissions (db Demo.w_stale_cache)) ≠ [].
Proof.
  split; [|split].
  - exists Demo.alice_admin.
    exists {| role_id := Demo.admin_role_id; role_name := "Admin";
              role_is_active := true; role_permissions := [] |}.
    repeat split; try reflexivity. simpl. auto.
  - vm_compute. reflexivity.
  - discriminate.
Qed.

Lemma getUserPermissions_admin_and_roleless_witness :
  fst (getUserPermissions Demo.alice_id (Demo.t0 + 60000)
         (restart Demo.w_stale_cache))
  = Returns (List.map toCachedPermission (permissions (db Demo.w_stale_cache))).
Proof.
  destruct (getUserPermissions_admin_and_roleless
              (restart Demo.w_stale_cache) Demo.alice_id Demo.alice_id
              (Demo.t0 + 60000) eq_refl)
    as (Hadmin & _ & Hmiss & _).
  rewrite (Hmiss eq_refl). apply Hadmin.
  exists Demo.alice_admin.
  exists {| role_id := Demo.admin_role_id; role_name := "Admin";
            role_is_active := true; role_permissions := [] |}.
  repeat split; try reflexivity. simpl. auto.
Defined.

Lemma generateAndSendOTP_deletes_all_codes_witness :
  List.map otp_type
    (otps (db (snd (generateAndSendOTP Demo.env Demo.createHmac
                      Demo.alice_id "alice@example.edu" EmailVerification
                      "135790" Demo.otp2_id (Demo.t0 + Demo.minutes 1) true
                      Demo.w_reset_requested))))
  = [EmailVerification].
Proof.
  destruct (generateAndSendOTP_deletes_all_codes
              Demo.env Demo.createHmac
              Demo.w_reset_requested
              (snd (generateAndSendOTP Demo.env Demo.createHmac
                      Demo.alice_id "alice@example.edu" EmailVerification
                      "135790" Demo.otp2_id (Demo.t0 + Demo.minutes 1) true
                      Demo.w_reset_requested))
              Demo.alice_id "alice@example.edu" EmailVerification
              "135790" Demo.otp2_id Demo.alice_id (Demo.t0 + Demo.minutes 1)
              true (Returns tt) eq_refl
              ltac:(vm_compute; reflexivity))
    as (Hotps & _).
  rewrite Hotps. reflexivity.
Defined.

(** C3, the failing run.  The reset code 482913 is verified at 09:05,
    which marks it used, and the same code is accepted again at 09:06:
    the lookup of [verifyPasswordResetOTP] has no [is_used] clause. *)
Theorem verifyPasswordResetOTP_accepts_used_code :
  let verify now w :=
    verifyPasswordResetOTP Demo.env Demo.createHmac "482913"
      "alice@example.edu" now w in
  let first := verify (Demo.t0 + Demo.minutes 5) Demo.w_reset_requested in
  let second := verify (Demo.t0 + Demo.minutes 6) (snd first) in
  fst first = Returns (Demo.alice_id, "alice@example.edu")
  ∧ List.map otp_is_used (otps (db (snd first))) = [true]
  ∧ fst second = Returns (Demo.alice_id, "alice@example.edu").
Proof.
  vm_compute. repeat split.
Qed.

(** C8, the failing run.  After [forgotPassword] (code 482913) and
    [resendOTP] (code 771204) both rows are stored, unused and
    unexpired; 771204 verifies, [resetPassword] then deletes its used
    row, and 482913 verifies as well. *)
Theorem resendOTP_keeps_previous_code :
  let verify code now w :=
    verifyPasswordResetOTP Demo.env Demo.createHmac code
      "alice@example.edu" now w in
  let w1 :=
    snd (resendOTP Demo.env Demo.createHmac "alice@example.edu" PasswordReset
           "771204" Demo.otp2_id (Demo.t0 + Demo.minutes 1) true
           Demo.w_reset_requested) in
  let w2 := snd (verify "771204" (Demo.t0 + Demo.minutes 2) w1) in
  let w3 :=
    snd (resetPassword Demo.env Demo.createHash "alice@example.edu"
           "new-password" (Demo.t0 + Demo.minutes 3) w2) in
  List.map otp_id
    (List.filter
       (otp_outstanding (Demo.t0 + Demo.minutes 2) Demo.alice_id PasswordReset)
       (otps (db w1)))
  = [Demo.otp1_id; Demo.otp2_id]
  ∧ fst (verify "771204" (Demo.t0 + Demo.minutes 2) w1)
    = Returns (Demo.alice_id, "alice@example.edu")
  ∧ fst (verify "482913" (Demo.t0 + Demo.minutes 4) w3)
    = Returns (Demo.alice_id, "alice@example.edu").
Proof.
  vm_compute. repeat split.
Qed.

(** C9, the failing run.  Alice's reset code is stored and unused;
    [resetPassword] succeeds, and the code is still stored, still
    outstanding and still verifies: the final [deleteMany] carries
    [is_used: true]. *)
Theorem resetPassword_keeps_outstanding_codes :
  let out :=
    resetPassword Demo.env Demo.createHash "alice@example.edu" "new-password"
      (Demo.t0 + Demo.minutes 1) Demo.w_reset_requested in
  fst out = Returns true
  ∧ List.map otp_id
      (List.filter
         (otp_outstanding (Demo.t0 + Demo.minutes 2) Demo.alice_id PasswordReset)
         (otps (db (snd out))))
    = [Demo.otp1_id]
  ∧ fst (verifyPasswordResetOTP Demo.env Demo.createHmac "482913"
           "alice@example.edu" (Demo.t0 + Demo.minutes 2) (snd out))
    = Returns (Demo.alice_id, "alice@example.edu").
Proof.
  vm_compute. repeat split.
Qed.

(** * Further properties *)

(** ** Collections, continued *)

Lemma updateOne_idempotent {A} (q : A -> bool) (f : A -> A) (c : list A) :
  (∀ x, q (f x) = q x) → (∀ x, f (f x) = f x) →
  updateOne q f (updateOne q f c) = updateOne q f c.
Proof.
  intros Hq Hf. induction c as [|a c IH]; simpl; [reflexivity|].
  destruct (q a) eqn:Ha; simpl.
  - now rewrite Hq, Ha, Hf.
  - now rewrite Ha, IH.
Qed.

Lemma updateMany_idempotent {A} (q : A -> bool) (f : A -> A) (c : list A) :
  (∀ x, q (f x) = q x) → (∀ x, f (f x) = f x) →
  updateMany q f (updateMany q f c) = updateMany q f c.
Proof.
  intros Hq Hf. unfold updateMany. rewrite map_map. apply map_ext.
  intros a. destruct (q a) eqn:Ha.
  - now rewrite Hq, Ha, Hf.
  - now rewrite Ha.
Qed.

Lemma updateOne_Forall2 {A} (q : A -> bool) (f : A -> A) (R : A -> A -> Prop)
    (c : list A) :
  (∀ x, R x x) → (∀ x, q x = true → R x (f x)) →
  Forall2 R c (updateOne q f c).
Proof.
  intros Hrefl Hf. induction c as [|a c IH]; simpl; [constructor|].
  destruct (q a) eqn:Ha; constructor; auto.
  clear IH. induction c; constructor; auto.
Qed.

Lemma updateMany_Forall2 {A} (q : A -> bool) (f : A -> A) (R : A -> A -> Prop)
    (c : list A) :
  (∀ x, R x x) → (∀ x, q x = true → R x (f x)) →
  Forall2 R c (updateMany q f c).
Proof.
  intros Hrefl Hf. induction c as [|a c IH]; simpl; constructor; auto.
  destruct (q a) eqn:Ha; auto.
Qed.

Lemma filter_length_split {A} (q : A -> bool) (c : list A) :
  (List.length (List.filter q c)
   + List.length (List.filter (fun d => negb (q d)) c))%nat
  = List.length c.
Proof.
  induction c as [|a c IH]; simpl; [reflexivity|].
  destruct (q a); simpl; lia.
Qed.

Lemma find_app_Some {A} (q : A -> bool) (c c' : list A) (d : A) :
  List.find q c = Some d → List.find q (c ++ c') = Some d.
Proof.
  induction c as [|a c IH]; simpl; [discriminate|].
  destruct (q a); [trivial|exact IH].
Qed.

Lemma truthy_nonempty s : truthy s = true → s ≠ "".
Proof.
  unfold truthy. intros H ->. discriminate.
Qed.

(** ** The token service, continued *)

Lemma blacklist_add_idempotent (t : string) (b : gset string) :
  {[ t ]} ∪ ({[ t ]} ∪ b) = {[ t ]} ∪ b.
Proof. rewrite (assoc_L (∪)), (idemp_L (∪)). reflexivity. Qed.

Lemma Forall2_same {A} (R : A -> A -> Prop) (c : list A) :
  (∀ x, R x x) → Forall2 R c c.
Proof. intros H. induction c; constructor; auto. Qed.

Lemma filter_none {A} (q : A -> bool) (c : list A) :
  (∀ d, In d c → q d = false) → List.filter q c = [].
Proof.
  induction c as [|a c IH]; simpl; [reflexivity|]. intros H.
  rewrite (H a (or_introl eq_refl)). apply IH. intros d Hd. apply H. now right.
Qed.

Lemma same_or_marked_refl d : same_or_marked d d.
Proof. now left. Qed.

(** X1.  Revocation is idempotent: a second [invalidateToken] of the
    same text, or a second [invalidateAllUserRefreshTokens] of the same
    principal, changes nothing. *)
Theorem invalidation_idempotent
    (jwt_decode : string -> option TokenPayload)
    (w : World) (token userId : string) :
  invalidateToken jwt_decode token (invalidateToken jwt_decode token w)
  = invalidateToken jwt_decode token w
  ∧ snd (invalidateAllUserRefreshTokens userId
           (snd (invalidateAllUserRefreshTokens userId w)))
    = snd (invalidateAllUserRefreshTokens userId w).
Proof.
  split.
  - unfold invalidateToken. destruct (jwt_decode token) as [p|].
    2:{ unfold set_blacklist. simpl. now rewrite blacklist_add_idempotent. }
    destruct (_ && _).
    2:{ unfold set_blacklist. simpl. now rewrite blacklist_add_idempotent. }
    destruct (newObjectId (sub p)) as [uid|].
    2:{ unfold set_blacklist. simpl. now rewrite blacklist_add_idempotent. }
    unfold set_tokens, set_blacklist. simpl.
    rewrite blacklist_add_idempotent, updateOne_idempotent; reflexivity.
  - unfold invalidateAllUserRefreshTokens, liftObjectId.
    destruct (newObjectId userId) as [uid|]; [|reflexivity].
    simpl. unfold set_tokens. simpl.
    rewrite updateMany_idempotent; reflexivity.
Qed.

(** X2.  Revocation only marks: [invalidateToken] and
    [invalidateAllUserRefreshTokens] keep every row in place and change
    nothing in it but [is_removed], which they set on refresh rows only;
    users, codes and the permission cache are untouched, and
    [invalidateAllUserRefreshTokens] leaves the blacklist and the rows of
    other principals as they are. *)
Theorem revocation_only_marks
    (jwt_decode : string -> option TokenPayload)
    (w : World) (token userId : string) :
  (let w' := invalidateToken jwt_decode token w in
   Forall2 same_or_marked (tokens (db w)) (tokens (db w'))
   ∧ users (db w') = users (db w) ∧ otps (db w') = otps (db w)
   ∧ permissionCache w' = permissionCache w)
  ∧ (let w' := snd (invalidateAllUserRefreshTokens userId w) in
     Forall2
       (fun d d' =>
          same_or_marked d d'
          ∧ (d' ≠ d → newObjectId userId = Some (tk_user_id d)))
       (tokens (db w)) (tokens (db w'))
     ∧ users (db w') = users (db w) ∧ otps (db w') = otps (db w)
     ∧ tokenBlacklist w' = tokenBlacklist w
     ∧ permissionCache w' = permissionCache w).
Proof.
  split.
  - unfold invalidateToken.
    assert (Hsame : Forall2 same_or_marked (tokens (db w)) (tokens (db w)))
      by (apply Forall2_same, same_or_marked_refl).
    destruct (jwt_decode token) as [p|]; [|simpl; auto].
    destruct (_ && _); [|simpl; auto].
    destruct (newObjectId (sub p)) as [uid|]; [|simpl; auto].
    simpl. repeat split; try reflexivity.
    apply updateOne_Forall2; [apply same_or_marked_refl|].
    intros d Hd. right. split; [reflexivity|].
    now apply refresh_row_spec in Hd as (_ & _ & Hd).
  - unfold invalidateAllUserRefreshTokens, liftObjectId.
    destruct (newObjectId userId) as [uid|]; simpl.
    + repeat split; try reflexivity.
      apply updateMany_Forall2.
      * intros d. split; [apply same_or_marked_refl|]. intros H. now destruct H.
      * intros d Hd. apply andb_true_iff in Hd as [Hu Ht].
        apply String.eqb_eq in Hu. apply bool_decide_eq_true in Ht.
        split; [right; split; [reflexivity|exact Ht]|]. intros _. now rewrite Hu.
    + repeat split; try reflexivity.
      apply Forall2_same. intros d. split; [apply same_or_marked_refl|].
      intros H. now destruct H.
Qed.

(** X3.  [cleanupExpiredTokens] reports the number of rows it deletes;
    it deletes exactly the rows whose [expires_at] lies before the
    clock reading (a row expiring at that very instant stays, and so
    does a removed row that has not expired), leaves the blacklist
    alone, and a second sweep at the same or an earlier reading
    deletes nothing. *)
Theorem cleanupExpiredTokens_sweeps (w : World) (now : Z) :
  let out := cleanupExpiredTokens now w in
  fst out
  = Returns (Z.of_nat (List.length (tokens (db w)))
             - Z.of_nat (List.length (tokens (db (snd out)))))
  ∧ (∀ d, In d (tokens (db (snd out)))
          ↔ In d (tokens (db w)) ∧ now ≤ tk_expires_at d)
  ∧ tokenBlacklist (snd out) = tokenBlacklist w
  ∧ (∀ now', now' ≤ now →
             cleanupExpiredTokens now' (snd out) = (Returns 0, snd out)).
Proof.
  unfold cleanupExpiredTokens, mbind, M_bind, bind, get_world. simpl.
  split; [|split; [|split]].
  - f_equal. unfold deleteMany.
    pose proof (filter_length_split (fun d => tk_expires_at d <? now)
                  (tokens (db w))). lia.
  - intros d. rewrite In_deleteMany, Z.ltb_ge. reflexivity.
  - reflexivity.
  - intros now' Hle.
    assert (Hnone : List.filter (fun d => tk_expires_at d <? now')
                      (deleteMany (fun d => tk_expires_at d <? now)
                                  (tokens (db w))) = []).
    { apply filter_none. intros d Hd. apply In_deleteMany in Hd as [_ Hd].
      apply Z.ltb_ge in Hd. apply Z.ltb_ge. lia. }
    unfold mret, M_ret, ret. rewrite Hnone. simpl. f_equal.
    unfold set_tokens. simpl. f_equal. f_equal.
    unfold deleteMany at 1.
    rewrite <- (app_nil_r (List.filter _ _)) at 1.
    clear Hnone.
    assert (Hall : ∀ c, (∀ d, In d c → now ≤ tk_expires_at d) →
                        List.filter (fun d => negb (tk_expires_at d <? now')) c = c).
    { induction c as [|a c IH]; simpl; [reflexivity|]. intros H.
      assert (Ha : (tk_expires_at a <? now') = false).
      { apply Z.ltb_ge. specialize (H a (or_introl eq_refl)). lia. }
      rewrite Ha. simpl. f_equal. apply IH. intros d Hd. apply H. now right. }
    rewrite app_nil_r. apply Hall. intros d Hd.
    apply In_deleteMany in Hd as [_ Hd]. now apply Z.ltb_ge in Hd.
Qed.


Lemma countDocuments_nonneg {A} (q : A -> bool) (c : list A) :
  0 ≤ countDocuments q c.
Proof. unfold countDocuments. lia. Qed.

Lemma countDocuments_cons {A} (q : A -> bool) (a : A) (c : list A) :
  countDocuments q (a :: c)
  = (if q a then 1 else 0) + countDocuments q c.
Proof.
  unfold countDocuments. simpl. destruct (q a); simpl List.length; lia.
Qed.

Lemma countDocuments_filter {A} (p q : A -> bool) (c : list A) :
  countDocuments q (List.filter p c)
  = countDocuments (fun d => p d && q d) c.
Proof.
  induction c as [|a c IH]; [reflexivity|]. simpl.
  destruct (p a) eqn:Hp.
  - rewrite !countDocuments_cons, Hp, IH. reflexivity.
  - rewrite countDocuments_cons, Hp, IH. simpl. lia.
Qed.

Lemma countDocuments_by_type (p : Token -> bool) (c : list Token) :
  countDocuments p c
  = countDocuments (fun d => p d && bool_decide (tk_type d = AccessToken)) c
    + countDocuments (fun d => p d && bool_decide (tk_type d = RefreshToken)) c
    + countDocuments
        (fun d => p d && bool_decide (tk_type d = ForgotPasswordToken)) c
    + countDocuments (fun d => p d && bool_decide (tk_type d = OTPVerify)) c.
Proof.
  induction c as [|a c IH]; [reflexivity|].
  rewrite !countDocuments_cons, IH.
  destruct (p a); destruct (tk_type a); simpl; lia.
Qed.

(** X4.  The figures of [getTokenStats] fit together: [activeByType]
    has an entry for exactly the kinds that have an active row, with
    their number; these numbers add up to [totalActive]; every stored
    row is either active or removed-or-expired; and since a row that is
    both removed and expired is counted in [totalRemoved] and in
    [totalExpired], the three totals can exceed the number of rows but
    never fall below it. *)
Theorem getTokenStats_counts (w : World) (now : Z) :
  let s := getTokenStats now w in
  let active_of t :=
    countDocuments
      (fun d => active_row now d && bool_decide (tk_type d = t))
      (tokens (db w)) in
  (∀ t, activeByType s !! TokenType_value t
        = if 0 <? active_of t then Some (active_of t) else None)
  ∧ totalActive s
    = List.fold_right Z.add 0
        (List.map (fun t => default 0 (activeByType s !! TokenType_value t))
                  all_TokenTypes)
  ∧ Z.of_nat (List.length (tokens (db w)))
    = totalActive s
      + countDocuments
          (fun d => tk_is_removed d || (tk_expires_at d <=? now))
          (tokens (db w))
  ∧ Z.of_nat (List.length (tokens (db w)))
    ≤ totalActive s + totalRemoved s + totalExpired s.
Proof.
  intros s active_of.
  assert (Hlookup : ∀ t, activeByType s !! TokenType_value t
                         = if 0 <? active_of t then Some (active_of t)
                           else None).
  { intros t. subst s. unfold getTokenStats, group_by_type. simpl activeByType.
    simpl List.map. rewrite !countDocuments_filter.
    fold (active_of AccessToken) (active_of RefreshToken)
         (active_of ForgotPasswordToken) (active_of OTPVerify).
    destruct t;
      destruct (0 <? active_of AccessToken);
      destruct (0 <? active_of RefreshToken);
      destruct (0 <? active_of ForgotPasswordToken);
      destruct (0 <? active_of OTPVerify);
      simpl;
      repeat (rewrite lookup_insert_eq
              || (rewrite lookup_insert_ne by discriminate)
              || rewrite lookup_empty);
      reflexivity. }
  assert (Hdefault : ∀ t, default 0 (activeByType s !! TokenType_value t)
                          = active_of t).
  { intros t. rewrite Hlookup.
    pose proof (countDocuments_nonneg
                  (fun d => active_row now d && bool_decide (tk_type d = t))
                  (tokens (db w))) as Hn. fold (active_of t) in Hn.
    destruct (0 <? active_of t) eqn:Hpos; simpl; [reflexivity|].
    apply Z.ltb_ge in Hpos. lia. }
  assert (Hsplit : Z.of_nat (List.length (tokens (db w)))
                   = totalActive s
                     + countDocuments
                         (fun d => tk_is_removed d || (tk_expires_at d <=? now))
                         (tokens (db w))).
  { subst s. simpl. clear. induction (tokens (db w)) as [|a c IH];
      [reflexivity|].
    rewrite !countDocuments_cons. simpl List.length. unfold active_row at 1.
    rewrite (Z.leb_antisym now (tk_expires_at a)).
    destruct (tk_is_removed a); destruct (now <? tk_expires_at a); simpl; lia. }
  split; [exact Hlookup|]. split; [|split; [exact Hsplit|]].
  - unfold all_TokenTypes. cbn [List.map List.fold_right].
    rewrite !Hdefault. subst s. simpl.
    rewrite (countDocuments_by_type (active_row now)). subst active_of. simpl.
    lia.
  - rewrite Hsplit. subst s. simpl. clear.
    induction (tokens (db w)) as [|a c IH]; [reflexivity|].
    rewrite !countDocuments_cons.
    destruct (tk_is_removed a); destruct (tk_expires_at a <=? now); simpl; lia.
Qed.

Section TokenServiceProperties.

#[local] Set Default Proof Using "Type".

Context (env : Env)
        (jwt_sign : TokenPayload -> string -> string)
        (jwt_verify : string -> string -> Z -> JwtVerify)
        (jwt_decode : string -> option TokenPayload).

Local Abbreviation validateToken := (validateToken env jwt_verify).
Local Abbreviation invalidateToken := (invalidateToken jwt_decode).
Local Abbreviation generateRefreshToken := (generateRefreshToken env jwt_sign).
Local Abbreviation run_call := (run_call env jwt_sign jwt_decode).
Local Abbreviation run_calls := (run_calls env jwt_sign jwt_decode).

(** X5.  A valid result is only given for a token that is not
    blacklisted and that the codec verified, under the key of the
    expected kind, to a payload of that kind, which is the payload
    returned; for a refresh token, moreover, a stored row of its
    [tokenId] and subject exists that is not removed. *)
Theorem validateToken_valid_sound
    (w : World) (now : Z) (token : string) (expectedType : TokenType) :
  valid (validateToken w now token expectedType) = true →
  ∃ p,
    validateToken w now token expectedType
      = {| valid := true; expired := false; payload := Some p; error := None |}
    ∧ (token ∉ tokenBlacklist w)
    ∧ jwt_verify token (TOKEN_SECRET_MAP env expectedType) now = VerifyOk p
    ∧ type p = expectedType
    ∧ (expectedType = RefreshToken →
       ∃ uid d,
         truthy_opt (tokenId p) = true ∧ truthy (sub p) = true
         ∧ newObjectId (sub p) = Some uid
         ∧ In d (tokens (db w))
         ∧ refresh_row (default "" (tokenId p)) uid d = true
         ∧ tk_is_removed d = false).
Proof.
  unfold validateToken.
  destruct (bool_decide (token ∈ tokenBlacklist w)) eqn:Hbl; [discriminate|].
  apply bool_decide_eq_false in Hbl.
  destruct (negb _); [discriminate|]. simpl.
  destruct (jwt_verify _ _ _) as [p|name message] eqn:Hv.
  2:{ unfold validateToken_catch. destruct (String.eqb _ _); discriminate. }
  destruct (bool_decide (type p = expectedType)) eqn:Hty; [|discriminate].
  apply bool_decide_eq_true in Hty. simpl.
  destruct (bool_decide (expectedType = RefreshToken)) eqn:Href.
  - apply bool_decide_eq_true in Href.
    destruct (truthy_opt (tokenId p)) eqn:Htid; [|discriminate].
    destruct (truthy (sub p)) eqn:Hsub; [|discriminate]. simpl.
    destruct (newObjectId (sub p)) as [uid|] eqn:Huid.
    2:{ unfold validateToken_catch. destruct (String.eqb _ _); discriminate. }
    destruct (findOne _ _) as [d|] eqn:Hfind; [|discriminate].
    intros _. apply findOne_Some in Hfind as [Hd Hq].
    apply andb_true_iff in Hq as [Hrow Hlive]. apply negb_true_iff in Hlive.
    exists p. repeat split; try assumption.
    intros _. exists uid, d. repeat split; assumption.
  - apply bool_decide_eq_false in Href. intros _. exists p.
    repeat split; try assumption. intros Heq. contradiction.
Qed.

(** X6.  The shape of every validation result: the [expired] flag is
    never set; a rejection carries no payload and a non-empty error
    message; an acceptance carries a payload and no error. *)
Theorem validateToken_result_shape
    (w : World) (now : Z) (token : string) (expectedType : TokenType) :
  let r := validateToken w now token expectedType in
  expired r = false
  ∧ (valid r = false →
     payload r = None ∧ ∃ message, error r = Some message ∧ message ≠ "")
  ∧ (valid r = true → error r = None ∧ payload r ≠ None).
Proof.
  assert (Hcatch : ∀ name message,
             let r := validateToken_catch name message in
             expired r = false
             ∧ (valid r = false →
                payload r = None ∧ ∃ m, error r = Some m ∧ m ≠ "")
             ∧ (valid r = true → error r = None ∧ payload r ≠ None)).
  { intros name message. unfold validateToken_catch.
    destruct (String.eqb name _); simpl; (split; [reflexivity|]);
      (split; [|discriminate]); intros _; (split; [reflexivity|]).
    - eexists; split; [reflexivity|discriminate].
    - destruct (truthy message) eqn:Hm.
      + exists message. split; [reflexivity|]. now apply truthy_nonempty.
      + eexists; split; [reflexivity|discriminate]. }
  assert (Hinv : ∀ c r,
             let res := invalidToken (String c r) in
             expired res = false
             ∧ (valid res = false →
                payload res = None ∧ ∃ m, error res = Some m ∧ m ≠ "")
             ∧ (valid res = true → error res = None ∧ payload res ≠ None)).
  { intros c r. simpl. split; [reflexivity|]. split; [|discriminate].
    intros _. split; [reflexivity|]. eexists; split; [reflexivity|discriminate]. }
  assert (Hok : ∀ p,
             let res := {| valid := true; expired := false;
                           payload := Some p; error := None |} in
             expired res = false
             ∧ (valid res = false →
                payload res = None ∧ ∃ m, error res = Some m ∧ m ≠ "")
             ∧ (valid res = true → error res = None ∧ payload res ≠ None)).
  { intros p. simpl. split; [reflexivity|]. split; [discriminate|].
    intros _. split; [reflexivity|discriminate]. }
  unfold validateToken.
  destruct (bool_decide _); [apply Hinv|].
  destruct (negb _); [apply Hinv|].
  destruct (jwt_verify _ _ _) as [p|name message]; [|apply Hcatch].
  destruct (negb _); [apply Hinv|].
  destruct (bool_decide _); [|apply Hok].
  destruct (_ || _); [apply Hinv|].
  destruct (newObjectId _); [|apply Hcatch].
  destruct (findOne _ _); [apply Hok|apply Hinv].
Qed.

Lemma run_call_keeps_blacklisted (token : string) (c : Call) (w : World) :
  no_restart c →
  token ∈ tokenBlacklist w → token ∈ tokenBlacklist (run_call c w).
Proof.
  intros Hc Hin. destruct c as [userId tokenId now|token'|userId|now|]; simpl.
  - unfold generateRefreshToken, liftObjectId.
    destruct (newObjectId userId); exact Hin.
  - assert (Hbl : token ∈ tokenBlacklist
                            (set_blacklist (fun b => {[ token' ]} ∪ b) w))
      by (simpl; apply elem_of_union; right; exact Hin).
    unfold invalidateToken. destruct (jwt_decode token') as [p|]; [|exact Hbl].
    destruct (_ && _); [|exact Hbl].
    destruct (newObjectId (sub p)); exact Hbl.
  - unfold invalidateAllUserRefreshTokens, liftObjectId.
    destruct (newObjectId userId); exact Hin.
  - exact Hin.
  - destruct Hc.
Qed.

Lemma invalidateToken_blacklists (token : string) (w : World) :
  token ∈ tokenBlacklist (invalidateToken token w).
Proof.
  assert (Hbl : token ∈ tokenBlacklist
                          (set_blacklist (fun b => {[ token ]} ∪ b) w))
    by (simpl; apply elem_of_union; left; now apply elem_of_singleton).
  unfold invalidateToken. destruct (jwt_decode token) as [p|]; [|exact Hbl].
  destruct (_ && _); [|exact Hbl].
  destruct (newObjectId (sub p)); exact Hbl.
Qed.

(** X7.  [invalidateToken] takes effect at once and for every kind of
    token, whether or not the text decodes: as long as the process
    runs, whatever token-store calls follow, [validateToken] rejects
    that text as invalidated under every expected kind. *)
Theorem invalidateToken_immediate
    (w : World) (token : string) (later : list Call) (now : Z)
    (expectedType : TokenType) :
  Forall no_restart later →
  validateToken (run_calls later (invalidateToken token w)) now token
                expectedType
  = invalidToken "Token has been invalidated".
Proof.
  intros Hlater.
  assert (Hin : token ∈ tokenBlacklist
                          (run_calls later (invalidateToken token w))).
  { generalize (invalidateToken_blacklists token w).
    generalize (invalidateToken token w). clear w.
    induction Hlater as [|c cs Hc _ IH]; intros w Hin; [exact Hin|].
    simpl. apply IH. now apply run_call_keeps_blacklisted. }
  unfold validateToken. now rewrite bool_decide_true.
Qed.

(** X8.  For every expected kind other than [RefreshToken] the result
    of [validateToken] depends on the process blacklist only, never on
    the store: [invalidateAllUserRefreshTokens] does not change it, and
    a restart forgets that such a token was invalidated. *)
Theorem validateToken_non_refresh_ignores_store
    (w w' : World) (now : Z) (token : string) (expectedType : TokenType)
    (userId : string) :
  expectedType ≠ RefreshToken →
  (tokenBlacklist w = tokenBlacklist w' →
   validateToken w now token expectedType
   = validateToken w' now token expectedType)
  ∧ validateToken (snd (invalidateAllUserRefreshTokens userId w)) now token
                  expectedType
    = validateToken w now token expectedType
  ∧ validateToken (restart (invalidateToken token w)) now token expectedType
    = validateToken (restart w) now token expectedType.
Proof.
  intros Hty.
  assert (Hgen : ∀ a b, tokenBlacklist a = tokenBlacklist b →
                        validateToken a now token expectedType
                        = validateToken b now token expectedType).
  { intros a b Hbl. unfold validateToken. rewrite Hbl.
    rewrite (bool_decide_false (expectedType = RefreshToken)) by exact Hty.
    reflexivity. }
  split; [apply Hgen|]. split; apply Hgen; [|reflexivity].
  unfold invalidateAllUserRefreshTokens, liftObjectId.
  destruct (newObjectId userId); reflexivity.
Qed.

(** X9.  Kinds do not cross: a token made by one of the three
    generators is rejected under every other expected kind, also when
    two kinds are configured with the same key, provided the codec
    never verifies a signed token to a payload other than the signed
    one. *)
Theorem token_kinds_do_not_cross
    (w : World) (now issuedAt ttl : Z) (userId email' tokenId : string)
    (roles' : list ObjectId) (expectedType : TokenType) :
  (∀ p key key' t p',
      jwt_verify (jwt_sign p key) key' t = VerifyOk p' → p' = p) →
  (expectedType ≠ AccessToken →
   valid (validateToken w now
            (generateAccessToken env jwt_sign userId email' roles' issuedAt)
            expectedType) = false)
  ∧ (expectedType ≠ RefreshToken →
     ∀ w0 w1 refreshToken,
       generateRefreshToken userId tokenId issuedAt w0
         = (Returns (refreshToken, tokenId), w1) →
       valid (validateToken w now refreshToken expectedType) = false)
  ∧ (expectedType ≠ ForgotPasswordToken →
     valid (validateToken w now
              (generateForgotPasswordToken env ttl jwt_sign userId issuedAt)
              expectedType) = false).
Proof.
  intros Hcodec.
  assert (Hgen : ∀ p key, type p ≠ expectedType →
                          valid (validateToken w now (jwt_sign p key)
                                               expectedType) = false).
  { intros p key Hty. unfold validateToken.
    destruct (bool_decide _); [reflexivity|].
    destruct (negb _); [reflexivity|].
    destruct (jwt_verify _ _ _) as [p'|name message] eqn:Hv.
    2:{ unfold validateToken_catch. now destruct (String.eqb _ _). }
    apply Hcodec in Hv as ->.
    now rewrite (bool_decide_false (type p = expectedType)) by exact Hty. }
  split; [|split]; intros Hne.
  - apply Hgen. simpl. congruence.
  - intros w0 w1 refreshToken. unfold generateRefreshToken, liftObjectId.
    destruct (newObjectId userId); simpl; [|discriminate].
    intros [= <- _]. apply Hgen. simpl. congruence.
  - apply Hgen. simpl. congruence.
Qed.

(** X10.  Issuing a refresh token is append-only: whatever token
    validated before [generateRefreshToken] ran validates afterwards
    with the same result, so a new session never ends an existing one. *)
Theorem generateRefreshToken_keeps_valid
    (w w' : World) (userId tokenId : string) (issuedAt : Z)
    (out : Outcome (string * string))
    (now : Z) (token : string) (expectedType : TokenType) :
  generateRefreshToken userId tokenId issuedAt w = (out, w') →
  valid (validateToken w now token expectedType) = true →
  validateToken w' now token expectedType
  = validateToken w now token expectedType.
Proof.
  intros Hgen. revert Hgen. unfold generateRefreshToken, liftObjectId.
  destruct (newObjectId userId) as [user_id|]; simpl.
  2:{ now intros [= _ <-]. }
  intros [= _ <-]. unfold validateToken. simpl.
  destruct (bool_decide _); [reflexivity|].
  destruct (negb _); [reflexivity|].
  destruct (jwt_verify _ _ _) as [p|name message]; [|reflexivity].
  destruct (negb _); [reflexivity|].
  destruct (bool_decide _); [|reflexivity].
  destruct (_ || _); [reflexivity|].
  destruct (newObjectId (sub p)) as [uid|]; [|reflexivity].
  unfold findOne, insertOne.
  destruct (List.find _ (tokens (db w))) as [d|] eqn:Hfind; [|discriminate].
  intros _. now rewrite (find_app_Some _ _ _ _ Hfind).
Qed.

End TokenServiceProperties.

(** ** The auth service, continued *)

Lemma findOne_updateOne_same {A} (q : A -> bool) (f : A -> A) (c : list A)
    (u : A) :
  findOne q c = Some u → q (f u) = true →
  findOne q (updateOne q f c) = Some (f u).
Proof.
  intros Hu Hq. induction c as [|a c IH]; simpl in *; [discriminate|].
  destruct (q a) eqn:Ha.
  - injection Hu as ->. simpl. now rewrite Hq.
  - simpl. rewrite Ha. now apply IH.
Qed.

Section AuthServiceProperties.

#[local] Set Default Proof Using "Type".

Context (env : Env)
        (jwt_sign : TokenPayload -> string -> string)
        (jwt_verify : string -> string -> Z -> JwtVerify)
        (jwt_decode : string -> option TokenPayload)
        (createHash : string -> string).

Local Abbreviation validateToken := (validateToken env jwt_verify).
Local Abbreviation invalidateToken := (invalidateToken jwt_decode).
Local Abbreviation generateRefreshToken := (generateRefreshToken env jwt_sign).
Local Abbreviation logout := (logout env jwt_verify jwt_decode).
Local Abbreviation reissueToken :=
  (reissueToken env jwt_sign jwt_verify jwt_decode).
Local Abbreviation changePassword := (changePassword env createHash).
Local Abbreviation resetPassword := (resetPassword env createHash).
Local Abbreviation comparePassword := (comparePassword env createHash).
Local Abbreviation hashPassword := (hashPassword env createHash).

(** X11.  [logout] is single-shot: a call that returns has done
    exactly [invalidateToken], and every later [logout] with the same
    token in that process is refused as invalidated, writing nothing. *)
Theorem logout_single_shot
    (w w' : World) (refreshToken : string) (now : Z) (b : bool) :
  logout refreshToken now w = (Returns b, w') →
  b = true
  ∧ w' = invalidateToken refreshToken w
  ∧ ∀ now',
      logout refreshToken now' w'
      = (Throws (ErrorWithStatus "Token has been invalidated" UN_AUTHORIZED),
         w').
Proof.
  unfold logout. destruct (negb (truthy refreshToken)) eqn:Htok; [discriminate|].
  unfold try_catch, mbind, M_bind, bind, get_world.
  destruct (valid (validateToken w now refreshToken RefreshToken)) eqn:Hvalid;
    simpl; [|discriminate].
  intros [= <- <-]. split; [reflexivity|]. split; [reflexivity|].
  intros now'.
  assert (Hrej : validateToken (invalidateToken refreshToken w) now'
                   refreshToken RefreshToken
                 = invalidToken "Token has been invalidated").
  { unfold validateToken.
    now rewrite bool_decide_true by apply invalidateToken_blacklists. }
  rewrite Hrej. reflexivity.
Qed.


(** X13.  The three outcomes of [logoutFromAllDevices]: an empty id is
    a [BAD_REQUEST]; an id that is no ObjectId is reported as an
    [INTERNAL_SERVER_ERROR]; otherwise the call returns true, every
    refresh row of the principal is removed, and the blacklist is left
    as it was.  A failing call writes nothing. *)
Theorem logoutFromAllDevices_outcomes (w : World) (userId : string) :
  (truthy userId = false →
   logoutFromAllDevices userId w
   = (Throws (ErrorWithStatus MESSAGE.USER_ID_MISSING BAD_REQUEST), w))
  ∧ (truthy userId = true → newObjectId userId = None →
     logoutFromAllDevices userId w
     = (Throws (ErrorWithStatus "Failed to logout from all devices"
                                INTERNAL_SERVER_ERROR), w))
  ∧ (∀ uid, newObjectId userId = Some uid →
       ∃ w', logoutFromAllDevices userId w = (Returns true, w')
             ∧ tokenBlacklist w' = tokenBlacklist w
             ∧ ∀ d, In d (tokens (db w')) → tk_user_id d = uid →
                    tk_type d = RefreshToken → tk_is_removed d = true).
Proof.
  unfold logoutFromAllDevices. split; [|split].
  - intros ->. reflexivity.
  - intros -> Hbad. simpl.
    unfold try_catch, mbind, M_bind, bind, invalidateAllUserRefreshTokens,
      liftObjectId. now rewrite Hbad.
  - intros uid Huid. rewrite (ObjectId_valid_truthy _ _ Huid). simpl.
    unfold try_catch, mbind, M_bind, bind, invalidateAllUserRefreshTokens,
      liftObjectId. rewrite Huid. simpl.
    eexists. split; [reflexivity|]. split; [reflexivity|]. simpl.
    intros d. rewrite In_updateMany. intros (d0 & _ & ->) Hu Ht.
    destruct (_ && _) eqn:Hq; [reflexivity|].
    rewrite Hu, Ht, String.eqb_refl in Hq. now rewrite bool_decide_true in Hq.
Qed.


(** X15.  [resetPassword] consults no one-time code: for a stored
    principal and a password other than the current one it succeeds
    whatever the [otps] collection holds, also when it is empty; the
    digest of the new password and the time of the change are then
    stored, and a second reset to the same password is refused without
    a write. *)
Theorem resetPassword_needs_no_code
    (w : World) (email' password : string) (now now' : Z) (user : User)
    (codes : list Otp) :
  findOne (fun u => String.eqb (usr_email u) email') (users (db w))
    = Some user →
  newObjectId (usr_id user) = Some (usr_id user) →
  comparePassword password (usr_password user) = false →
  ∃ w',
    resetPassword email' password now (set_otps (fun _ => codes) w)
      = (Returns true, w')
    ∧ findOne (fun u => String.eqb (usr_email u) email') (users (db w'))
      = Some (set_password (hashPassword password) now user)
    ∧ resetPassword email' password now' w'
      = (Throws (ErrorWithStatus MESSAGE.NEW_PASSWORD_SAME_AS_CURRENT
                                 BAD_REQUEST),
         w').
Proof.
  intros Huser Hid Hdiff.
  unfold resetPassword, mbind, M_bind, bind, get_world. simpl.
  rewrite Huser, Hdiff.
  unfold invalidateAllUserRefreshTokens, liftObjectId, mbind, M_bind, bind,
    ObjectId_toString.
  rewrite Hid. simpl. eexists. split; [reflexivity|]. simpl.
  assert (Hstored : findOne (fun u => String.eqb (usr_email u) email')
                      (updateOne (fun u => String.eqb (usr_email u) email')
                                 (set_password (hashPassword password) now)
                                 (users (db w)))
                    = Some (set_password (hashPassword password) now user)).
  { apply findOne_updateOne_same; [exact Huser|].
    apply findOne_Some in Huser as [_ Hq]. exact Hq. }
  split; [exact Hstored|]. rewrite Hstored. simpl.
  unfold comparePassword. now rewrite String.eqb_refl.
Qed.

End AuthServiceProperties.

(** ** One-time codes, continued *)

Lemma findOne_desc_Some {A} (key : A -> Z) (q : A -> bool) (c : list A) (d : A) :
  findOne_desc key q c = Some d → In d c ∧ q d = true.
Proof.
  revert d. induction c as [|a c IH]; simpl; [discriminate|]. intros d.
  destruct (q a) eqn:Ha.
  - destruct (findOne_desc key q c) as [d'|].
    + destruct (key a <? key d').
      * intros [= <-]. destruct (IH d' eq_refl). auto.
      * intros [= <-]. auto.
    + intros [= <-]. auto.
  - intros Hd. destruct (IH d Hd). auto.
Qed.

Lemma findOne_desc_None {A} (key : A -> Z) (q : A -> bool) (c : list A) :
  (∀ d, In d c → q d = false) → findOne_desc key q c = None.
Proof.
  induction c as [|a c IH]; simpl; [reflexivity|]. intros H.
  rewrite (H a (or_introl eq_refl)). apply IH. intros d Hd. apply H. now right.
Qed.

Lemma findOne_desc_unique {A} (key : A -> Z) (q : A -> bool) (c : list A)
    (d : A) :
  In d c → q d = true → (∀ x, In x c → q x = true → x = d) →
  findOne_desc key q c = Some d.
Proof.
  intros Hd Hq Huniq.
  destruct (findOne_desc key q c) as [d'|] eqn:Hfind.
  - apply findOne_desc_Some in Hfind as [Hd' Hq']. f_equal. now apply Huniq.
  - exfalso. clear Huniq. induction c as [|a c IH]; [destruct Hd|].
    simpl in Hfind. destruct Hd as [->|Hd].
    + rewrite Hq in Hfind. destruct (findOne_desc key q c) as [d'|];
        [destruct (key d <? key d')|]; discriminate.
    + destruct (q a); [|now apply IH].
      destruct (findOne_desc key q c) as [d'|];
        [destruct (key a <? key d')|]; discriminate.
Qed.

Section OtpFlowProperties.

#[local] Set Default Proof Using "Type".

Context (env : Env)
        (createHmac : string -> string -> string).

Local Abbreviation newOtp := (newOtp env createHmac).
Local Abbreviation encryptOTP := (encryptOTP env createHmac).
Local Abbreviation forgotPassword := (forgotPassword env createHmac).
Local Abbreviation generateAndSendOTP := (generateAndSendOTP env createHmac).
Local Abbreviation verifyOTP := (verifyOTP env createHmac).
Local Abbreviation verifyPasswordResetOTP :=
  (verifyPasswordResetOTP env createHmac).

(** X16.  Issue and verify, password reset.  Whether or not the mail
    could be sent, the code that [forgotPassword] has drawn for a
    stored principal is accepted by [verifyPasswordResetOTP] at every
    clock reading before fifteen minutes have passed; from the
    fifteenth minute on every code is refused; and a code with another
    digest is refused without a write, so the right one stays usable. *)
Theorem forgotPassword_then_verify
    (w w1 : World) (email' plainOtp otp : string) (newId : ObjectId)
    (now now' : Z) (mail_ok : bool) (out : Outcome unit) (user : User) :
  findOne (fun u => String.eqb (usr_email u) (normalizedEmail email'))
          (users (db w)) = Some user →
  forgotPassword email' plainOtp newId now mail_ok w = (out, w1) →
  (now' < now + 15 * 60 * 1000 →
   ∃ w2, verifyPasswordResetOTP plainOtp email' now' w1
         = (Returns (ObjectId_toString (usr_id user), usr_email user), w2))
  ∧ (now + 15 * 60 * 1000 ≤ now' →
     verifyPasswordResetOTP otp email' now' w1
     = (Throws (ErrorWithStatus MESSAGE.INVALID_OTP BAD_REQUEST), w1))
  ∧ (encryptOTP otp ≠ encryptOTP plainOtp →
     verifyPasswordResetOTP otp email' now' w1
     = (Throws (ErrorWithStatus MESSAGE.INVALID_OTP BAD_REQUEST), w1)).
Proof.
  intros Huser Hrun.
  set (fresh := newOtp newId (usr_id user) plainOtp PasswordReset now).
  set (stale := fun o : Otp => String.eqb (otp_user_id o) (usr_id user)
                               && bool_decide (otp_type o = PasswordReset)).
  assert (Hw1 : users (db w1) = users (db w)
                ∧ otps (db w1) = insertOne fresh (deleteMany stale (otps (db w)))).
  { revert Hrun. unfold forgotPassword, mbind, M_bind, bind, get_world.
    rewrite Huser. simpl. unfold sendEmail.
    destruct mail_ok; intros [= _ <-]; split; reflexivity. }
  destruct Hw1 as [Husers Hotps].
  assert (Honly : ∀ t x, In x (otps (db w1)) →
                         String.eqb (otp_user_id x) (usr_id user)
                         && bool_decide (otp_type x = PasswordReset)
                         && (t <? otp_expired_at x) = true → x = fresh).
  { intros t x. rewrite Hotps, In_insertOne, In_deleteMany.
    intros [[_ Hx]|Hx] Hq; [|exact Hx].
    apply andb_true_iff in Hq as [Hq _]. unfold stale in Hx.
    rewrite Hq in Hx. discriminate. }
  assert (Hfresh : In fresh (otps (db w1))).
  { rewrite Hotps. apply In_insertOne. now right. }
  assert (Hq : ∀ t, String.eqb (otp_user_id fresh) (usr_id user)
                    && bool_decide (otp_type fresh = PasswordReset)
                    && (t <? otp_expired_at fresh)
                    = (t <? now + 15 * 60 * 1000)).
  { intros t. unfold fresh. simpl. now rewrite String.eqb_refl. }
  unfold verifyPasswordResetOTP, mbind, M_bind, bind, get_world.
  rewrite Husers, Huser. split; [|split].
  - intros Hearly.
    rewrite (findOne_desc_unique otp_created_at _ _ fresh Hfresh).
    + unfold utils_verifyOTP. simpl. rewrite String.eqb_refl. simpl.
      eexists. reflexivity.
    + rewrite Hq. now apply Z.ltb_lt.
    + intros x. apply Honly.
  - intros Hlate. rewrite findOne_desc_None; [reflexivity|].
    intros x Hx.
    destruct (String.eqb (otp_user_id x) (usr_id user)
              && bool_decide (otp_type x = PasswordReset)
              && (now' <? otp_expired_at x)) eqn:Hx'; [|reflexivity].
    rewrite (Honly _ _ Hx Hx'), Hq in Hx'. apply Z.ltb_lt in Hx'. lia.
  - intros Hwrong.
    destruct (findOne_desc otp_created_at _ (otps (db w1))) as [o|] eqn:Hfind;
      [|reflexivity].
    apply findOne_desc_Some in Hfind as [Ho Ho'].
    rewrite (Honly _ _ Ho Ho'). unfold utils_verifyOTP. simpl.
    apply String.eqb_neq in Hwrong. fold (encryptOTP otp) (encryptOTP plainOtp).
    rewrite Hwrong. reflexivity.
Qed.

(** X17.  Issue and verify, email verification.  The code that
    [generateAndSendOTP] has drawn for a stored, not yet verified
    principal is accepted by [verifyOTP] before fifteen minutes have
    passed, whether or not the mail could be sent; the account is then
    marked verified, and from then on [verifyOTP] refuses every code
    for that address. *)
Theorem generateAndSendOTP_then_verifyOTP
    (w w1 : World) (userId email' plainOtp : string) (newId : ObjectId)
    (now now' : Z) (mail_ok : bool) (out : Outcome unit) (user : User) :
  List.NoDup (List.map usr_id (users (db w))) →
  findOne (fun u => String.eqb (usr_email u) (normalizedEmail email'))
          (users (db w)) = Some user →
  newObjectId userId = Some (usr_id user) →
  usr_verify user ≠ Verified →
  generateAndSendOTP userId email' EmailVerification plainOtp newId now
                     mail_ok w = (out, w1) →
  now' < now + 15 * 60 * 1000 →
  ∃ w2,
    verifyOTP plainOtp email' now' w1 = (Returns true, w2)
    ∧ findOne (fun u => String.eqb (usr_email u) (normalizedEmail email'))
              (users (db w2)) = Some (set_verified user)
    ∧ ∀ otp t,
        verifyOTP otp email' t w2
        = (Throws (ErrorWithStatus MESSAGE.INVALID_OTP BAD_REQUEST), w2).
Proof.
  intros Hnd Huser Huid Hunverified Hrun Hearly.
  set (fresh := newOtp newId (usr_id user) plainOtp EmailVerification now).
  assert (Hw1 : users (db w1) = users (db w)
                ∧ otps (db w1)
                  = insertOne fresh
                      (deleteMany
                         (fun o => String.eqb (otp_user_id o) (usr_id user))
                         (otps (db w)))).
  { revert Hrun. unfold generateAndSendOTP, liftObjectId, mbind, M_bind, bind.
    rewrite Huid. simpl. unfold sendEmail.
    destruct mail_ok; intros [= _ <-]; split; reflexivity. }
  destruct Hw1 as [Husers Hotps].
  assert (Honly : ∀ x, In x (otps (db w1)) →
                       String.eqb (otp_user_id x) (usr_id user)
                       && bool_decide (otp_type x = EmailVerification)
                       && (now' <? otp_expired_at x)
                       && negb (otp_is_used x) = true → x = fresh).
  { intros x. rewrite Hotps, In_insertOne, In_deleteMany.
    intros [[_ Hx]|Hx] Hq; [|exact Hx].
    apply andb_true_iff in Hq as [Hq _]. apply andb_true_iff in Hq as [Hq _].
    apply andb_true_iff in Hq as [Hq _]. rewrite Hq in Hx. discriminate. }
  assert (Hfresh : In fresh (otps (db w1))).
  { rewrite Hotps. apply In_insertOne. now right. }
  assert (Hrun2 : ∃ w2, verifyOTP plainOtp email' now' w1 = (Returns true, w2)
                        ∧ users (db w2)
                          = updateOne
                              (fun u => String.eqb (usr_id u) (usr_id user))
                              set_verified (users (db w))).
  { unfold verifyOTP, mbind, M_bind, bind, get_world.
    rewrite Husers, Huser.
    rewrite (bool_decide_false (usr_verify user = Verified)) by exact Hunverified.
    rewrite (findOne_desc_unique otp_created_at _ _ fresh Hfresh).
    - unfold utils_verifyOTP. simpl. rewrite String.eqb_refl. simpl.
      eexists. split; [reflexivity|]. simpl. now rewrite Husers.
    - unfold fresh. simpl. rewrite String.eqb_refl. simpl.
      unfold createOTPExpiration. rewrite andb_true_r. apply Z.ltb_lt. lia.
    - exact Honly. }
  destruct Hrun2 as (w2 & Hrun2 & Husers2). exists w2.
  split; [exact Hrun2|]. split.
  - rewrite Husers2.
    apply (findOne_updateOne_by_id
             (fun u => String.eqb (usr_email u) (normalizedEmail email'))
             set_verified _ user Hnd (fun _ => eq_refl) Huser).
  - apply (verifyOTP_consumes env createHmac w1 w2 plainOtp email' now' true);
      [now rewrite Husers|exact Hrun2].
Qed.


End OtpFlowProperties.

(** ** The permission service, continued *)

Lemma oid_in_In (o : ObjectId) (ids : list ObjectId) :
  oid_in o ids = true ↔ In o ids.
Proof.
  unfold oid_in. rewrite existsb_exists. split.
  - intros (x & Hx & Heq). apply String.eqb_eq in Heq. now subst.
  - intros H. exists o. split; [exact H|apply String.eqb_refl].
Qed.

Lemma permissionIds_In (rs : list Role) (acc : list ObjectId) (x : ObjectId) :
  In x (List.fold_left
          (fun (ids : list ObjectId) r =>
             if negb (Nat.eqb (List.length (role_permissions r)) 0)
             then (ids ++ role_permissions r)%list else ids)
          rs acc)
  ↔ In x acc ∨ ∃ r, In r rs ∧ In x (role_permissions r).
Proof.
  revert acc. induction rs as [|r rs IH]; intros acc; simpl.
  - split; [auto|]. intros [H|(r & [] & _)]. exact H.
  - rewrite IH. destruct (role_permissions r) as [|y ys] eqn:Hr; simpl.
    + split.
      * intros [H|(r' & Hr' & Hx)]; [auto|]. right. exists r'. auto.
      * intros [H|(r' & [<-|Hr'] & Hx)]; [auto| |].
        -- rewrite Hr in Hx. destruct Hx.
        -- right. exists r'. auto.
    + rewrite in_app_iff. split.
      * intros [[H|H]|(r' & Hr' & Hx)]; [auto| |].
        -- right. exists r. rewrite Hr. auto.
        -- right. exists r'. auto.
      * intros [H|(r' & [<-|Hr'] & Hx)]; [auto| |].
        -- left. right. now rewrite Hr in Hx.
        -- right. exists r'. auto.
Qed.

Lemma getUserPermissionsFromDB_reads_db (userId : string) (w w0 : World) :
  db w0 = db w →
  fst (getUserPermissionsFromDB userId w0) = fst (getUserPermissionsFromDB userId w).
Proof.
  intros Hdb.
  unfold getUserPermissionsFromDB, liftObjectId, mbind, M_bind, bind, get_world.
  destruct (newObjectId userId); simpl; [|reflexivity].
  rewrite Hdb.
  destruct (findOne _ (users (db w))) as [user|]; [|reflexivity].
  destruct (Nat.eqb _ 0); [reflexivity|].
  destruct (Nat.eqb _ 0); [reflexivity|].
  destruct (existsb _ _); [reflexivity|].
  destruct (Nat.eqb _ 0); reflexivity.
Qed.

Lemma getUserPermissionsFromDB_read_only (userId : string) (w : World) :
  snd (getUserPermissionsFromDB userId w) = w.
Proof.
  unfold getUserPermissionsFromDB, liftObjectId, mbind, M_bind, bind, get_world.
  destruct (newObjectId userId); simpl; [|reflexivity].
  destruct (findOne _ (users (db w))) as [user|]; [|reflexivity].
  destruct (Nat.eqb _ 0); [reflexivity|].
  destruct (Nat.eqb _ 0); [reflexivity|].
  destruct (existsb _ _); [reflexivity|].
  destruct (Nat.eqb _ 0); reflexivity.
Qed.

(** X19.  What a principal without an active Admin role gets from
    [getUserPermissionsFromDB]: exactly the catalog permissions that
    one of its active roles lists.  An inactive role grants nothing,
    and a listed id that is not in the catalog is passed over. *)
Theorem getUserPermissionsFromDB_exact
    (w : World) (userId : string) (uid : ObjectId) (user : User) :
  newObjectId userId = Some uid →
  findOne (fun u => String.eqb (usr_id u) uid) (users (db w)) = Some user →
  ¬ is_admin w user →
  ∃ perms,
    getUserPermissionsFromDB userId w = (Returns perms, w)
    ∧ ∀ cp, In cp perms
            ↔ ∃ p, In p (permissions (db w)) ∧ cp = toCachedPermission p
                   ∧ granted w user p.
Proof.
  intros Huid Huser Hnoadmin.
  unfold getUserPermissionsFromDB, liftObjectId, mbind, M_bind, bind, get_world.
  rewrite Huid. simpl. rewrite Huser.
  set (userRoles := List.filter
                      (fun r => oid_in (role_id r) (usr_roles user)
                                && role_is_active r)
                      (db_roles (db w))).
  assert (Hroles : ∀ r, In r userRoles
                        ↔ In r (db_roles (db w))
                          ∧ oid_in (role_id r) (usr_roles user) = true
                          ∧ role_is_active r = true).
  { intros r. unfold userRoles. rewrite filter_In, andb_true_iff. reflexivity. }
  assert (Hgranted : ∀ p, granted w user p
                          ↔ ∃ r, In r userRoles ∧ In (perm_id p) (role_permissions r)).
  { intros p. unfold granted. split.
    - intros (r & Hr & Hin & Hact & Hp). exists r. split; [|exact Hp].
      apply Hroles. auto.
    - intros (r & Hr & Hp). apply Hroles in Hr as (Hr & Hin & Hact).
      exists r. auto. }
  destruct (usr_roles user) as [|o os] eqn:Hur.
  { simpl. exists []. split; [reflexivity|]. intros cp. split; [intros []|].
    intros (p & _ & _ & (r & Hr & Hp)%Hgranted).
    apply Hroles in Hr as (_ & Hin & _). discriminate. }
  simpl Nat.eqb. cbv iota.
  destruct userRoles as [|r0 rs] eqn:Hlist.
  { simpl. exists []. split; [reflexivity|]. intros cp. split; [intros []|].
    intros (p & _ & _ & (r & Hr & Hp)%Hgranted). destruct Hr. }
  simpl Nat.eqb. cbv iota.
  destruct (existsb _ (r0 :: rs)) eqn:Hadmin.
  { exfalso. apply Hnoadmin. apply existsb_exists in Hadmin as (r & Hr & Hname).
    apply Hroles in Hr as (Hr & Hin & Hact). apply String.eqb_eq in Hname.
    exists r. rewrite Hur. auto. }
  set (permissionIds := List.fold_left _ (r0 :: rs) []).
  assert (Hids : ∀ x, In x permissionIds
                      ↔ ∃ r, In r (r0 :: rs) ∧ In x (role_permissions r)).
  { intros x. unfold permissionIds. rewrite permissionIds_In. split.
    - intros [[]|H]. exact H.
    - intros H. now right. }
  destruct permissionIds as [|i0 ids] eqn:Hpid.
  { simpl. exists []. split; [reflexivity|]. intros cp. split; [intros []|].
    intros (p & _ & _ & (r & Hr & Hp)%Hgranted).
    assert (Hin : In (perm_id p) []) by (apply Hids; eauto). destruct Hin. }
  simpl Nat.eqb. cbv iota. eexists. split; [reflexivity|].
  intros cp. rewrite in_map_iff. split.
  - intros (p & <- & Hp). apply filter_In in Hp as [Hp Hin].
    apply oid_in_In in Hin. exists p. split; [exact Hp|]. split; [reflexivity|].
    apply Hgranted. now apply Hids.
  - intros (p & Hp & -> & Hg). exists p. split; [reflexivity|].
    apply filter_In. split; [exact Hp|]. apply oid_in_In. apply Hids.
    now apply Hgranted.
Qed.

(** X20.  A cache miss fills the cache: after [getUserPermissions] has
    answered from the database, every later call for that principal
    made less than [CACHE_TTL] after the first returns the same list,
    whatever has happened to the database in between, as long as the
    principal's cache entry is in place.  The call writes nothing but
    that one entry. *)
Theorem getUserPermissions_caches
    (w w1 : World) (userId : string) (now : Z)
    (perms : list CachedPermission) :
  cache_fresh w userId now = false →
  getUserPermissions userId now w = (Returns perms, w1) →
  db w1 = db w
  ∧ tokenBlacklist w1 = tokenBlacklist w
  ∧ (∀ other, other ≠ userId →
              permissionCache w1 !! other = permissionCache w !! other)
  ∧ ∀ w2 now',
      permissionCache w2 !! userId = permissionCache w1 !! userId →
      now' - now < CACHE_TTL →
      getUserPermissions userId now' w2 = (Returns perms, w2).
Proof.
  intros Hstale Hrun.
  assert (Hw1 : w1 = set_cache
                       <[ userId := {| upc_permissions := perms;
                                       upc_timestamp := now |} ]> w).
  { unfold cache_fresh in Hstale.
    unfold getUserPermissions, mbind, M_bind, bind, get_world in Hrun.
    pose proof (getUserPermissionsFromDB_read_only userId w) as Hro.
    destruct (permissionCache w !! userId) as [c|]; [rewrite Hstale in Hrun|];
      destruct (getUserPermissionsFromDB userId w) as [[a|e] w'];
      simpl in Hro; subst w'; try discriminate;
      unfold modify, mret, M_ret, ret in Hrun; simpl in Hrun;
      now injection Hrun as <- <-. }
  subst w1. simpl. repeat split.
  - intros other Hother. now apply lookup_insert_ne.
  - intros w2 now' Hentry Hyoung.
    apply (getUserPermissions_hit w2 userId now'
             {| upc_permissions := perms; upc_timestamp := now |}).
    + rewrite Hentry. apply lookup_insert_eq.
    + exact Hyoung.
Qed.

(** X21.  Clearing the cache forces a read: after [clearUserCache] the
    next [getUserPermissions] of that principal answers from the
    database, at any clock reading, while the entries of the other
    principals stay; after [clearCache] this holds for every principal.
    Neither touches the database. *)
Theorem clearing_the_cache_forces_a_read
    (w : World) (userId : string) (now : Z) :
  (let w' := snd (clearUserCache userId w) in
   fst (getUserPermissions userId now w')
   = fst (getUserPermissionsFromDB userId w)
   ∧ (∀ other, other ≠ userId →
               permissionCache w' !! other = permissionCache w !! other)
   ∧ db w' = db w)
  ∧ (let w' := snd (clearCache w) in
     (∀ anyone, fst (getUserPermissions anyone now w')
                = fst (getUserPermissionsFromDB anyone w))
     ∧ db w' = db w).
Proof.
  split; cbv zeta.
  - split; [|split].
    + rewrite getUserPermissions_miss.
      * now apply getUserPermissionsFromDB_reads_db.
      * unfold cache_fresh, clearUserCache, modify. simpl.
        now rewrite lookup_delete_eq.
    + intros other Hother. unfold clearUserCache, modify. simpl.
      now apply lookup_delete_ne.
    + reflexivity.
  - split; [|reflexivity]. intros anyone.
    rewrite getUserPermissions_miss.
    + now apply getUserPermissionsFromDB_reads_db.
    + unfold cache_fresh, clearCache, modify. simpl.
      now rewrite lookup_empty.
Qed.

Lemma forallb_existsb_nonempty {A} (f : A -> bool) (l : list A) :
  l ≠ [] → List.forallb f l = true → List.existsb f l = true.
Proof.
  destruct l as [|x l]; [congruence|]. simpl. intros _ H.
  apply andb_true_iff in H as [-> _]. reflexivity.
Qed.

(** X22.  The permission checks at their edges.  An empty requirement
    is granted by [hasAllPermissions], [hasAnyPermission] and
    [hasRoles] without reading anything, also for an id that is no
    ObjectId; for a requirement that is not empty, whoever passes
    [hasAllPermissions] passes [hasAnyPermission]; for a single
    permission the two agree; and a principal whose roles are all
    inactive passes neither once its cache entry is gone. *)
Theorem permission_checks_at_the_edges
    (w : World) (userId : string) (now : Z) :
  (hasAllPermissions userId [] now w = (Returns true, w)
   ∧ hasAnyPermission userId [] now w = (Returns true, w)
   ∧ hasRoles userId [] w = (Returns true, w))
  ∧ (∀ required w',
       required ≠ [] →
       hasAllPermissions userId required now w = (Returns true, w') →
       hasAnyPermission userId required now w = (Returns true, w'))
  ∧ (∀ name,
       hasAllPermissions userId [name] now w
       = hasAnyPermission userId [name] now w)
  ∧ (∀ uid required,
       newObjectId userId = Some uid →
       no_active_role w uid →
       cache_fresh w userId now = false →
       required ≠ [] →
       fst (hasAllPermissions userId required now w) = Returns false
       ∧ fst (hasAnyPermission userId required now w) = Returns false).
Proof.
  split; [repeat split|]. split; [|split].
  - intros required w' Hne Hall.
    unfold hasAllPermissions, hasAnyPermission in *.
    destruct required as [|r rs]; [congruence|].
    cbn [Nat.eqb List.length] in *.
    unfold mbind, M_bind, bind in *.
    destruct (getUserPermissions userId now w) as [[perms|e] w0];
      [|discriminate].
    unfold mret, M_ret, ret in *. injection Hall as Hall <-.
    rewrite (forallb_existsb_nonempty _ (r :: rs)); [reflexivity|discriminate|exact Hall].
  - intros name. unfold hasAllPermissions, hasAnyPermission.
    cbn [Nat.eqb List.length]. unfold mbind, M_bind, bind.
    destruct (getUserPermissions userId now w) as [[perms|e] w0];
      [|reflexivity].
    unfold mret, M_ret, ret. simpl. now rewrite andb_true_r, orb_false_r.
  - intros uid required Huid Hnone Hstale Hne.
    pose proof (getUserPermissions_miss w userId now Hstale) as Hmiss.
    rewrite (getUserPermissionsFromDB_roleless w userId uid Huid Hnone) in Hmiss.
    simpl in Hmiss.
    unfold hasAllPermissions, hasAnyPermission.
    destruct required as [|r rs]; [congruence|].
    cbn [Nat.eqb List.length]. unfold mbind, M_bind, bind.
    destruct (getUserPermissions userId now w) as [[perms|e] w0];
      simpl in Hmiss; [|discriminate].
    injection Hmiss as ->. unfold mret, M_ret, ret. simpl. split; [reflexivity|].
    f_equal. clear. induction rs as [|x xs IH]; [reflexivity|]. simpl.
    simpl in IH. exact IH.
Qed.

Lemma includes_In (x : string) (l : list string) :
  includes x l = true ↔ In x l.
Proof. exact (oid_in_In x l). Qed.

(** X23.  Role checks are never stale: [hasRoles] reads the database
    and neither reads nor writes the permission cache.  It grants the
    requirement [Admin] to exactly the stored principals holding an
    active role of that name, and to those
    [getUserPermissionsFromDB] gives the whole catalog. *)
Theorem hasRoles_reads_the_database
    (w : World) (userId : string) :
  (∀ required f,
     hasRoles userId required (set_cache f w)
     = (fst (hasRoles userId required w), set_cache f w))
  ∧ (hasRoles userId [UserRole_Admin] w = (Returns true, w)
     ↔ ∃ uid, newObjectId userId = Some uid ∧ holds_active_admin w uid)
  ∧ (hasRoles userId [UserRole_Admin] w = (Returns true, w) →
     getUserPermissionsFromDB userId w
     = (Returns (List.map toCachedPermission (permissions (db w))), w)).
Proof.
  assert (Hadmin : hasRoles userId [UserRole_Admin] w = (Returns true, w)
                   ↔ ∃ uid, newObjectId userId = Some uid
                            ∧ holds_active_admin w uid).
  { unfold hasRoles, holds_active_admin.
    cbn [Nat.eqb List.length].
    unfold liftObjectId, mbind, M_bind, bind, get_world.
    destruct (newObjectId userId) as [uid|]; cbn -[String.eqb UserRole_Admin].
    - destruct (findOne _ (users (db w))) as [user|] eqn:Hu.
      + destruct (usr_roles user) as [|o os] eqn:Hur.
        * cbn -[String.eqb UserRole_Admin]. split; [discriminate|].
          intros (uid' & [= <-] & user' & r & Hu' & _ & Hin & _).
          rewrite Hu in Hu'. injection Hu' as <-.
          rewrite Hur in Hin. discriminate.
        * cbn [Nat.eqb List.length]. unfold mret, M_ret, ret.
          rewrite orb_false_r. split.
          -- intros [= H]. apply includes_In in H.
             apply in_map_iff in H as (r & Hname & Hr).
             apply filter_In in Hr as [Hr Hq].
             apply andb_true_iff in Hq as [Hin Hact].
             exists uid. split; [reflexivity|]. exists user, r.
             rewrite Hur. auto.
          -- intros (uid' & [= <-] & user' & r & Hu' & Hr & Hin & Hact & Hname).
             rewrite Hu in Hu'. injection Hu' as <-.
             f_equal. f_equal. apply includes_In.
             apply in_map_iff. exists r. split; [exact Hname|].
             apply filter_In. split; [exact Hr|].
             rewrite Hur in Hin. now rewrite Hin, Hact.
      + split; [discriminate|].
        intros (uid' & [= <-] & user' & r & Hu' & _).
        rewrite Hu in Hu'. discriminate.
    - split; [discriminate|]. intros (uid' & Hnone & _). discriminate. }
  split; [|split; [exact Hadmin|]].
  - intros required f. unfold hasRoles.
    destruct (Nat.eqb _ 0); [reflexivity|].
    unfold liftObjectId, mbind, M_bind, bind, get_world.
    destruct (newObjectId userId) as [uid|]; simpl; [|reflexivity].
    destruct (findOne _ (users (db w))) as [user|]; [|reflexivity].
    destruct (Nat.eqb _ 0); reflexivity.
  - intros (uid & Huid & Hholds)%Hadmin.
    now apply (getUserPermissionsFromDB_admin w userId uid).
Qed.

(** ** The authentication middleware *)

Lemma split_no_sep (sep : ascii) (s : string) :
  String.index 0 (String sep "") s = None → split sep s = [s].
Proof.
  induction s as [|c r IH]; [reflexivity|]. simpl.
  destruct (ascii_dec sep c) as [->|Hne].
  - destruct r; discriminate.
  - destruct (String.index 0 (String sep "") r); [discriminate|].
    intros _. rewrite IH by reflexivity.
    destruct (Ascii.eqb c sep) eqn:Heq; [|reflexivity].
    apply Ascii.eqb_eq in Heq. congruence.
Qed.

Lemma bearer_header (token : string) :
  String.index 0 " " token = None →
  startsWith "Bearer " ("Bearer " ++ token) = true
  ∧ truthy ("Bearer " ++ token) = true
  ∧ second_field ("Bearer " ++ token) = token.
Proof.
  intros Hspace. split; [|split].
  - unfold startsWith. simpl. now destruct token.
  - reflexivity.
  - unfold second_field.
    change (split " " ("Bearer " ++ token)) with ("Bearer" :: split " " token).
    now rewrite (split_no_sep " " token Hspace).
Qed.

Lemma findOne_stronger {A} (q q' : A -> bool) (c : list A) (d : A) :
  (∀ x, q' x = true → q x = true) →
  findOne q c = Some d → q' d = true → findOne q' c = Some d.
Proof.
  intros Hsub. unfold findOne.
  induction c as [|a c IH]; simpl; [discriminate|].
  destruct (q a) eqn:Hq.
  - intros [= ->] Hd. now rewrite Hd.
  - destruct (q' a) eqn:Hq'; [|exact IH].
    apply Hsub in Hq'. congruence.
Qed.

Section MiddlewareProperties.

#[local] Set Default Proof Using "Type".

Context (env : Env)
        (jwt_sign : TokenPayload -> string -> string)
        (jwt_verify : string -> string -> Z -> JwtVerify).

Local Abbreviation validateToken := (validateToken env jwt_verify).
Local Abbreviation authMiddleware := (authMiddleware env jwt_verify).
Local Abbreviation optionalAuth := (optionalAuth env jwt_verify).
Local Abbreviation generateAuthTokens := (generateAuthTokens env jwt_sign).

Lemma validateToken_access_inv (w : World) (now : Z) (token : string) :
  valid (validateToken w now token AccessToken) = true →
  ∃ p,
    validateToken w now token AccessToken
      = {| valid := true; expired := false; payload := Some p; error := None |}
    ∧ (token ∉ tokenBlacklist w)
    ∧ jwt_verify token (ACCESS_TOKEN_PRIVATE_KEY env) now = VerifyOk p
    ∧ type p = AccessToken.
Proof.
  unfold validateToken.
  destruct (bool_decide (token ∈ tokenBlacklist w)) eqn:Hbl; [discriminate|].
  apply bool_decide_eq_false in Hbl.
  destruct (negb _); [discriminate|]. simpl.
  destruct (jwt_verify _ _ _) as [p|name message] eqn:Hv.
  2:{ unfold validateToken_catch. destruct (String.eqb _ _); discriminate. }
  destruct (bool_decide (type p = AccessToken)) eqn:Hty; [|discriminate].
  apply bool_decide_eq_true in Hty. simpl. intros _. exists p. auto.
Qed.

(** X24.  What [authMiddleware] lets through and what it forwards.  It
    never writes.  A request passes only with a header [Bearer <token>]
    whose token is not blacklisted and verifies under the access key to
    an access payload, and whose subject is a stored user that is not
    removed; [req.user] is then taken from the stored user, not from
    the claims of the token.  Every refusal is an [UN_AUTHORIZED] or the
    user-not-found error, except that a verified token whose subject is
    no ObjectId makes the raw [BSONError] reach [next]. *)
Theorem authMiddleware_outcome
    (w w' : World) (authorization : option string) (now : Z)
    (out : Outcome RequestUser) :
  authMiddleware authorization now w = (out, w') →
  w' = w
  ∧ match out with
    | Returns u =>
        ∃ header p uid user,
          authorization = Some header
          ∧ startsWith "Bearer " header = true
          ∧ (second_field header ∉ tokenBlacklist w)
          ∧ jwt_verify (second_field header) (ACCESS_TOKEN_PRIVATE_KEY env) now
            = VerifyOk p
          ∧ type p = AccessToken
          ∧ newObjectId (sub p) = Some uid
          ∧ In user (users (db w))
          ∧ usr_id user = uid
          ∧ usr_is_removed user = false
          ∧ u = requestUser user
    | Throws e =>
        (∃ message, e = ErrorWithStatus message UN_AUTHORIZED)
        ∨ e = ErrorWithStatus MESSAGE.USER_NOT_FOUND NOT_FOUND
        ∨ e = BSONError
    end.
Proof.
  unfold authMiddleware, throw.
  destruct (negb (truthy (default "" authorization))
            || negb (startsWith "Bearer " (default "" authorization)))
    eqn:Hhdr.
  { intros [= <- <-]. split; [reflexivity|]. left. eauto. }
  apply orb_false_iff in Hhdr as [Htruthy Hstarts].
  apply negb_false_iff in Htruthy, Hstarts.
  destruct authorization as [header|]; [|discriminate]. simpl default in *.
  unfold mbind, M_bind, bind, get_world. cbn [fst snd].
  destruct (valid (validateToken w now (second_field header) AccessToken))
    eqn:Hvalid.
  2:{ cbn [negb]. destruct (expired _); intros [= <- <-];
      (split; [reflexivity|]); left; eauto. }
  destruct (validateToken_access_inv w now _ Hvalid)
    as (p & Hres & Hbl & Hv & Hty).
  rewrite Hres. simpl.
  destruct (truthy (sub p)) eqn:Hsub; simpl.
  2:{ intros [= <- <-]. split; [reflexivity|]. left. eauto. }
  unfold liftObjectId.
  destruct (newObjectId (sub p)) as [uid|] eqn:Huid; simpl.
  2:{ intros [= <- <-]. split; [reflexivity|]. right. right. reflexivity. }
  destruct (findOne _ (users (db w))) as [user|] eqn:Hu.
  2:{ intros [= <- <-]. split; [reflexivity|]. right. left. reflexivity. }
  intros [= <- <-]. split; [reflexivity|].
  apply findOne_Some in Hu as [Hin Hq].
  apply andb_true_iff in Hq as [Hid Hlive].
  apply String.eqb_eq in Hid. apply negb_true_iff in Hlive.
  exists header, p, uid, user. auto 12.
Qed.

(** X25.  [optionalAuth] sets [req.user] in exactly the cases in which
    [authMiddleware] lets the request pass, and to the same value;
    in every case in which [authMiddleware] refuses, [optionalAuth]
    continues without a user. *)
Theorem optionalAuth_agrees
    (w : World) (authorization : option string) (now : Z) :
  (∀ u, optionalAuth authorization now w = Some u
        ↔ authMiddleware authorization now w = (Returns u, w))
  ∧ (optionalAuth authorization now w = None
     ↔ ∃ e, authMiddleware authorization now w = (Throws e, w)).
Proof.
  assert (Hboth :
    match optionalAuth authorization now w with
    | Some u => authMiddleware authorization now w = (Returns u, w)
    | None => ∃ e, authMiddleware authorization now w = (Throws e, w)
    end).
  { unfold optionalAuth, authMiddleware, throw.
    destruct (negb (truthy (default "" authorization))
              || negb (startsWith "Bearer " (default "" authorization))).
    { eauto. }
    unfold mbind, M_bind, bind, get_world. cbn [fst snd].
    destruct (validateToken w now _ AccessToken) as [v ex pl er].
    cbn [valid expired payload error].
    destruct v; cbn [negb]; [|destruct ex; eauto].
    destruct pl as [p|]; simpl; [|eauto].
    destruct (truthy (sub p)) eqn:Hsub; simpl.
    2:{ unfold truthy in Hsub. apply negb_false_iff, String.eqb_eq in Hsub.
        rewrite Hsub. simpl. eauto. }
    unfold liftObjectId.
    destruct (newObjectId (sub p)) as [uid|]; simpl; [|eauto].
    destruct (findOne _ (users (db w))) as [user|]; simpl; eauto. }
  split.
  - intros u. destruct (optionalAuth authorization now w) as [u'|].
    + rewrite Hboth. split; [now intros [= ->]|now intros [= ->]].
    + destruct Hboth as [e He]. rewrite He. split; discriminate.
  - destruct (optionalAuth authorization now w) as [u'|].
    + rewrite Hboth. split; [discriminate|]. intros [e He]. discriminate.
    + split; [intros _; exact Hboth|reflexivity].
Qed.

(** X26.  From login to an authenticated request.  For a stored user
    that is not removed, [generateAuthTokens] returns a pair of tokens,
    and the access token, sent as [Bearer <token>] before it expires,
    passes [authMiddleware] with [req.user] naming that user, provided
    the access key is set, the token holds no space and is not
    blacklisted, and the codec accepts the token under its signing
    key. *)
Theorem generateAuthTokens_then_authMiddleware
    (w : World) (userId email' tokenId : string) (issuedAt now : Z)
    (uid : ObjectId) (user : User) :
  let access := accessPayload env userId email' (usr_roles user) issuedAt in
  let accessToken := jwt_sign access (ACCESS_TOKEN_PRIVATE_KEY env) in
  newObjectId userId = Some uid →
  findOne (fun u => String.eqb (usr_id u) uid) (users (db w)) = Some user →
  usr_is_removed user = false →
  truthy (ACCESS_TOKEN_PRIVATE_KEY env) = true →
  jwt_verify accessToken (ACCESS_TOKEN_PRIVATE_KEY env) now = VerifyOk access →
  String.index 0 " " accessToken = None →
  accessToken ∉ tokenBlacklist w →
  ∃ refreshToken w1,
    generateAuthTokens userId email' tokenId issuedAt w
      = (Returns (accessToken, refreshToken), w1)
    ∧ authMiddleware (Some ("Bearer " ++ accessToken)) now w1
      = (Returns (requestUser user), w1).
Proof.
  intros access accessToken Huid Huser Hlive Hkey Hcodec Hspace Hbl.
  unfold generateAuthTokens, generateRefreshToken, generateAccessToken.
  unfold liftObjectId, mbind, M_bind, bind, get_world, modify.
  rewrite Huid. cbn [ret fst snd]. rewrite Huser.
  unfold mret, M_ret, ret. cbn [fst snd]. fold access. fold accessToken.
  eexists _, _. split; [reflexivity|].
  set (w1 := set_tokens _ w).
  destruct (bearer_header accessToken Hspace) as (Hstarts & Htruthy & Hfield).
  unfold authMiddleware. cbn [default id].
  rewrite Htruthy, Hstarts, Hfield. cbn [negb orb].
  unfold mbind, M_bind, bind, get_world. cbn [fst snd].
  assert (Hres : validateToken w1 now accessToken AccessToken
                 = {| valid := true; expired := false;
                      payload := Some access; error := None |}).
  { unfold validateToken. rewrite bool_decide_false by exact Hbl.
    cbn [TOKEN_SECRET_MAP]. rewrite Hkey. cbn [negb]. rewrite Hcodec.
    reflexivity. }
  rewrite Hres. simpl.
  rewrite (ObjectId_valid_truthy userId uid Huid). simpl.
  unfold liftObjectId. rewrite Huid. simpl.
  rewrite (findOne_stronger
             (fun u => String.eqb (usr_id u) uid)
             (fun u => String.eqb (usr_id u) uid && negb (usr_is_removed u))
             (users (db w)) user).
  - reflexivity.
  - intros x Hx. now apply andb_true_iff in Hx as [Hx _].
  - exact Huser.
  - apply findOne_Some in Huser as [_ Hid]. now rewrite Hid, Hlive.
Qed.

End MiddlewareProperties.

(** ** Identifier and token formats *)

Lemma lower_ascii_idem (c : ascii) : lower_ascii (lower_ascii c) = lower_ascii c.
Proof. destruct c as [[] [] [] [] [] [] [] []]; reflexivity. Qed.

Lemma is_hex_digit_lower (c : ascii) :
  is_hex_digit (lower_ascii c) = is_hex_digit c.
Proof. destruct c as [[] [] [] [] [] [] [] []]; reflexivity. Qed.

Lemma toLowerCase_idem (s : string) : toLowerCase (toLowerCase s) = toLowerCase s.
Proof.
  induction s as [|c r IH]; [reflexivity|]. simpl.
  now rewrite lower_ascii_idem, IH.
Qed.

Lemma ObjectId_isValid_toLowerCase (s : string) :
  ObjectId_isValid (toLowerCase s) = ObjectId_isValid s.
Proof.
  unfold ObjectId_isValid. f_equal.
  - f_equal. induction s as [|c r IH]; [reflexivity|]. simpl. now rewrite IH.
  - induction s as [|c r IH]; [reflexivity|]. simpl.
    now rewrite is_hex_digit_lower, IH.
Qed.

(** X27.  [validateObjectId] accepts exactly the strings that
    [new ObjectId(id).toString()] gives back unchanged, the canonical
    ids: an id with an upper-case digit is refused although
    [new ObjectId] takes it.  Whatever [new ObjectId] constructs
    prints as a canonical id, which constructs the same ObjectId
    again. *)
Theorem validateObjectId_canonical (id : string) :
  (validateObjectId id = true ↔ newObjectId id = Some id)
  ∧ (validateObjectId id = true
     ↔ ObjectId_isValid id = true ∧ toLowerCase id = id)
  ∧ (∀ o, newObjectId id = Some o →
          validateObjectId (ObjectId_toString o) = true
          ∧ newObjectId (ObjectId_toString o) = Some o).
Proof.
  unfold validateObjectId, newObjectId, ObjectId_toString.
  split; [|split].
  - destruct (ObjectId_isValid id); simpl; [|split; discriminate].
    rewrite String.eqb_eq. split; [now intros ->|now intros [= ->]].
  - destruct (ObjectId_isValid id); simpl.
    + rewrite String.eqb_eq. tauto.
    + split; [discriminate|]. intros [H _]. discriminate.
  - intros o. destruct (ObjectId_isValid id) eqn:Hvalid; [|discriminate].
    intros [= <-]. rewrite ObjectId_isValid_toLowerCase, Hvalid. simpl.
    rewrite toLowerCase_idem. split; [apply String.eqb_refl|reflexivity].
Qed.

Lemma split_nonempty (sep : ascii) (s : string) : split sep s ≠ [].
Proof.
  destruct s as [|c r]; simpl; [discriminate|].
  destruct (Ascii.eqb c sep); [discriminate|].
  destruct (split sep r); discriminate.
Qed.

Lemma concat_split (sep : ascii) (s : string) :
  String.concat (String sep "") (split sep s) = s.
Proof.
  induction s as [|c r IH]; [reflexivity|]. simpl.
  pose proof (split_nonempty sep r) as Hne.
  destruct (Ascii.eqb c sep) eqn:Heq.
  - apply Ascii.eqb_eq in Heq. subst c.
    destruct (split sep r) as [|x xs]; [congruence|].
    change (String.concat (String sep "") ("" :: x :: xs))
      with (String sep (String.concat (String sep "") (x :: xs))).
    now rewrite IH.
  - destruct (split sep r) as [|x xs]; [congruence|].
    destruct xs as [|y ys].
    + simpl in *. now rewrite IH.
    + change (String.concat (String sep "") (String c x :: y :: ys))
        with (String c (String.concat (String sep "") (x :: y :: ys))).
      now rewrite IH.
Qed.

Lemma is_base64url_not (c d : ascii) :
  is_base64url c = true → is_base64url d = false → Ascii.eqb c d = false.
Proof.
  intros Hc Hd. destruct (Ascii.eqb c d) eqn:Heq; [|reflexivity].
  apply Ascii.eqb_eq in Heq. congruence.
Qed.

Lemma split_segment (sep : ascii) (a r : string) :
  is_base64url sep = false → all_base64url a = true →
  split sep (a ++ String sep r) = a :: split sep r.
Proof.
  intros Hsep. induction a as [|c a IH]; intros Ha.
  - change ("" ++ String sep r) with (String sep r).
    simpl. now rewrite Ascii.eqb_refl.
  - simpl in Ha. apply andb_true_iff in Ha as [Hc Ha].
    change (split sep (String c a ++ String sep r))
      with (if Ascii.eqb c sep then EmptyString :: split sep (a ++ String sep r)
            else match split sep (a ++ String sep r) with
                 | [] => [String c EmptyString]
                 | x :: xs => String c x :: xs
                 end).
    now rewrite (is_base64url_not c sep Hc Hsep), IH.
Qed.

Lemma split_last_segment (sep : ascii) (a : string) :
  is_base64url sep = false → all_base64url a = true → split sep a = [a].
Proof.
  intros Hsep. induction a as [|c a IH]; intros Ha; [reflexivity|].
  simpl in Ha. apply andb_true_iff in Ha as [Hc Ha]. simpl.
  now rewrite (is_base64url_not c sep Hc Hsep), IH.
Qed.

Lemma index_space_cons (c : ascii) (r : string) :
  c ≠ " "%char → String.index 0 " " r = None →
  String.index 0 " " (String c r) = None.
Proof.
  intros Hc Hr. cbn [String.index String.prefix]. rewrite Hr.
  destruct (ascii_dec " " c) as [<-|_]; [congruence|reflexivity].
Qed.

Lemma is_base64url_no_space (c : ascii) : is_base64url c = true → c ≠ " "%char.
Proof. intros Hc ->. discriminate. Qed.

Lemma no_space_segment (a r : string) (d : ascii) :
  all_base64url a = true → d ≠ " "%char →
  String.index 0 " " r = None →
  String.index 0 " " (a ++ String d r) = None.
Proof.
  intros Ha Hd Hr. induction a as [|c a IH].
  - change ("" ++ String d r) with (String d r).
    now apply index_space_cons.
  - simpl in Ha. apply andb_true_iff in Ha as [Hc Ha].
    change (String c a ++ String d r) with (String c (a ++ String d r)).
    apply index_space_cons; [now apply is_base64url_no_space|now apply IH].
Qed.

Lemma no_space_last_segment (a : string) :
  all_base64url a = true → String.index 0 " " a = None.
Proof.
  induction a as [|c a IH]; intros Ha; [reflexivity|].
  simpl in Ha. apply andb_true_iff in Ha as [Hc Ha].
  apply index_space_cons; [now apply is_base64url_no_space|now apply IH].
Qed.

(** X28.  [isValidJwtFormat], for an integer [MIN_JWT_LENGTH]: a text
    is accepted exactly when it is no shorter than the minimum and
    consists of three non-empty runs of letters, digits, [-] and [_]
    joined by two dots.  An accepted text holds no space, so it comes
    back unchanged from the header [Bearer <token>] as the middleware
    reads it. *)
Theorem isValidJwtFormat_accepts (MIN_JWT_LENGTH : Z) (token : string) :
  (isValidJwtFormat MIN_JWT_LENGTH token = true
   ↔ MIN_JWT_LENGTH ≤ Z.of_nat (String.length token)
     ∧ ∃ a b c,
         token = a ++ "." ++ b ++ "." ++ c
         ∧ a ≠ "" ∧ b ≠ "" ∧ c ≠ ""
         ∧ all_base64url a = true ∧ all_base64url b = true
         ∧ all_base64url c = true)
  ∧ (isValidJwtFormat MIN_JWT_LENGTH token = true →
     startsWith "Bearer " ("Bearer " ++ token) = true
     ∧ second_field ("Bearer " ++ token) = token).
Proof.
  assert (Hiff :
    isValidJwtFormat MIN_JWT_LENGTH token = true
    ↔ MIN_JWT_LENGTH ≤ Z.of_nat (String.length token)
      ∧ ∃ a b c,
          token = a ++ "." ++ b ++ "." ++ c
          ∧ a ≠ "" ∧ b ≠ "" ∧ c ≠ ""
          ∧ all_base64url a = true ∧ all_base64url b = true
          ∧ all_base64url c = true).
  { unfold isValidJwtFormat, REGEX_JWT_TOKEN_test. split.
    - destruct (negb (truthy token)); [discriminate|].
      destruct (Z.ltb_spec (Z.of_nat (String.length token)) MIN_JWT_LENGTH)
        as [|Hlen]; [discriminate|].
      pose proof (concat_split "." token) as Hjoin.
      destruct (split "." token) as [|a [|b [|c [|d l]]]]; try discriminate.
      intros H. repeat (apply andb_true_iff in H as [H ?]).
      split; [exact Hlen|]. exists a, b, c.
      repeat split; try assumption; try (now apply truthy_nonempty).
      symmetry. exact Hjoin.
    - intros (Hlen & a & b & c & -> & Ha & Hb & Hc & Hba & Hbb & Hbc).
      assert (Htruthy : ∀ s, s ≠ "" → truthy s = true).
      { intros s Hs. destruct s; [congruence|reflexivity]. }
      replace (truthy (a ++ "." ++ b ++ "." ++ c)) with true
        by (destruct a; [congruence|reflexivity]).
      cbn [negb].
      destruct (Z.ltb_spec (Z.of_nat (String.length (a ++ "." ++ b ++ "." ++ c)))
                           MIN_JWT_LENGTH) as [Hshort|_]; [lia|].
      change (a ++ "." ++ b ++ "." ++ c)
        with (a ++ String "." (b ++ String "." c)).
      rewrite (split_segment "." a _ eq_refl Hba).
      rewrite (split_segment "." b _ eq_refl Hbb).
      rewrite (split_last_segment "." c eq_refl Hbc).
      now rewrite !Htruthy, Hba, Hbb, Hbc by assumption. }
  split; [exact Hiff|].
  intros (_ & a & b & c & -> & _ & _ & _ & Hba & Hbb & Hbc)%Hiff.
  assert (Hspace : String.index 0 " " (a ++ "." ++ b ++ "." ++ c) = None).
  { change (a ++ "." ++ b ++ "." ++ c)
      with (a ++ String "." (b ++ String "." c)).
    apply no_space_segment; [exact Hba|discriminate|].
    apply no_space_segment; [exact Hbb|discriminate|].
    now apply no_space_last_segment. }
  destruct (bearer_header _ Hspace) as (Hstarts & _ & Hfield). auto.
Qed.

(** ** Instances on the concrete deployment, continued *)

Lemma Demo_codec_reads_signed p key key' t p' :
  Demo.jwt_verify (Demo.jwt_sign p key) key' t = VerifyOk p' → p' = p.
Proof.
  unfold Demo.jwt_sign.
  destruct (List.find _ Demo.issued) as [e|] eqn:Hfind.
  - apply find_some in Hfind as [Hin Hq].
    apply andb_true_iff in Hq as [Hp _]. apply bool_decide_eq_true in Hp.
    subst p. intros Hv.
    simpl in Hin.
    destruct Hin as [<-|[<-|[<-|[<-|[<-|[<-|[]]]]]]];
      (eapply Demo_verify_reads_payload; [|exact Hv]; reflexivity).
  - intros Hv. vm_compute in Hv. discriminate.
Qed.

Lemma validateToken_valid_sound_witness :
  ∃ p, Demo.jwt_verify "jwt.R1" (REFRESH_TOKEN_PRIVATE_KEY Demo.env) Demo.t1
       = VerifyOk p
       ∧ type p = RefreshToken.
Proof.
  destruct (validateToken_valid_sound Demo.env Demo.jwt_verify Demo.w_login
              Demo.t1 "jwt.R1" RefreshToken eq_refl)
    as (p & _ & _ & Hv & Hty & _).
  exists p. split; assumption.
Defined.

Lemma invalidateToken_immediate_witness :
  validateToken Demo.env Demo.jwt_verify
    (run_calls Demo.env Demo.jwt_sign Demo.jwt_decode
       [CallGenerateRefreshToken Demo.alice_id Demo.R2_id Demo.t1;
        CallCleanupExpiredTokens Demo.t1]
       (invalidateToken Demo.jwt_decode "jwt.A1" Demo.w_login))
    Demo.t1 "jwt.A1" AccessToken
  = invalidToken "Token has been invalidated".
Proof.
  apply (invalidateToken_immediate Demo.env Demo.jwt_sign Demo.jwt_verify
           Demo.jwt_decode).
  repeat constructor.
Defined.

Lemma validateToken_non_refresh_ignores_store_witness :
  validateToken Demo.env Demo.jwt_verify
    (restart (invalidateToken Demo.jwt_decode "jwt.A1" Demo.w_login))
    Demo.t1 "jwt.A1" AccessToken
  = validateToken Demo.env Demo.jwt_verify (restart Demo.w_login)
      Demo.t1 "jwt.A1" AccessToken.
Proof.
  apply (validateToken_non_refresh_ignores_store Demo.env Demo.jwt_verify
           Demo.jwt_decode Demo.w_login Demo.w_login Demo.t1 "jwt.A1"
           AccessToken Demo.alice_id).
  discriminate.
Defined.

Lemma token_kinds_do_not_cross_witness :
  valid (validateToken Demo.env Demo.jwt_verify Demo.w_login Demo.t1
           (generateAccessToken Demo.env Demo.jwt_sign Demo.alice_id
              "alice@example.edu" [Demo.student_role_id] Demo.t0)
           RefreshToken) = false.
Proof.
  apply (token_kinds_do_not_cross Demo.env Demo.jwt_sign Demo.jwt_verify
           Demo.w_login Demo.t1 Demo.t0 900 Demo.alice_id "alice@example.edu"
           Demo.R1_id [Demo.student_role_id] RefreshToken).
  - intros p key key' t p'. apply Demo_codec_reads_signed.
  - discriminate.
Defined.

Lemma generateRefreshToken_keeps_valid_witness :
  validateToken Demo.env Demo.jwt_verify
    (snd (generateRefreshToken Demo.env Demo.jwt_sign Demo.alice_id Demo.R2_id
            Demo.t1 Demo.w_login))
    Demo.t1 "jwt.R1" RefreshToken
  = validateToken Demo.env Demo.jwt_verify Demo.w_login Demo.t1 "jwt.R1"
      RefreshToken.
Proof.
  apply (generateRefreshToken_keeps_valid Demo.env Demo.jwt_sign
           Demo.jwt_verify Demo.w_login _ Demo.alice_id Demo.R2_id Demo.t1
           (fst (generateRefreshToken Demo.env Demo.jwt_sign Demo.alice_id
                   Demo.R2_id Demo.t1 Demo.w_login))).
  - apply surjective_pairing.
  - reflexivity.
Defined.

Lemma logout_single_shot_witness :
  logout Demo.env Demo.jwt_verify Demo.jwt_decode "jwt.R1" (Demo.t1 + 1000)
    (invalidateToken Demo.jwt_decode "jwt.R1" Demo.w_login)
  = (Throws (ErrorWithStatus "Token has been invalidated" UN_AUTHORIZED),
     invalidateToken Demo.jwt_decode "jwt.R1" Demo.w_login).
Proof.
  destruct (logout_single_shot Demo.env Demo.jwt_verify Demo.jwt_decode
              Demo.w_login
              (invalidateToken Demo.jwt_decode "jwt.R1" Demo.w_login)
              "jwt.R1" Demo.t1 true)
    as (_ & _ & Hlater).
  - vm_compute. reflexivity.
  - apply Hlater.
Defined.


Lemma resetPassword_needs_no_code_witness :
  ∃ w',
    resetPassword Demo.env Demo.createHash "alice@example.edu" "new-password"
      Demo.t1 (set_otps (fun _ => []) Demo.w_login)
    = (Returns true, w').
Proof.
  destruct (resetPassword_needs_no_code Demo.env Demo.createHash Demo.w_login
              "alice@example.edu" "new-password" Demo.t1 Demo.t1 Demo.alice
              [] eq_refl eq_refl eq_refl)
    as (w' & Hrun & _).
  exists w'. exact Hrun.
Defined.

Lemma forgotPassword_then_verify_witness :
  ∃ w2,
    verifyPasswordResetOTP Demo.env Demo.createHmac "482913"
      "alice@example.edu" (Demo.t0 + Demo.minutes 5) Demo.w_reset_requested
    = (Returns (Demo.alice_id, "alice@example.edu"), w2).
Proof.
  destruct (forgotPassword_then_verify Demo.env Demo.createHmac Demo.w_login
              Demo.w_reset_requested "alice@example.edu" "482913" "000000"
              Demo.otp1_id Demo.t0 (Demo.t0 + Demo.minutes 5) true
              (fst (forgotPassword Demo.env Demo.createHmac "alice@example.edu"
                      "482913" Demo.otp1_id Demo.t0 true Demo.w_login))
              Demo.alice eq_refl (surjective_pairing _))
    as (Hverify & _).
  apply Hverify. vm_compute. reflexivity.
Defined.

Lemma generateAndSendOTP_then_verifyOTP_witness :
  let bob :=
    {| usr_id := "bbbbbbbbbbbbbbbbbbbbbbbb"; usr_email := "bob@example.edu";
       usr_password := Demo.createHash "secret"; usr_roles := [];
       usr_verify := Unverified; usr_is_removed := false;
       usr_password_change_at := None |} in
  let w := set_users (fun us => us ++ [bob])%list Demo.w_login in
  ∃ w2,
    verifyOTP Demo.env Demo.createHmac "135790" "bob@example.edu"
      (Demo.t0 + Demo.minutes 5)
      (snd (generateAndSendOTP Demo.env Demo.createHmac
              "bbbbbbbbbbbbbbbbbbbbbbbb" "bob@example.edu" EmailVerification
              "135790" Demo.otp2_id Demo.t0 true w))
    = (Returns true, w2).
Proof.
  intros bob w.
  destruct (generateAndSendOTP_then_verifyOTP Demo.env Demo.createHmac w
              (snd (generateAndSendOTP Demo.env Demo.createHmac
                      "bbbbbbbbbbbbbbbbbbbbbbbb" "bob@example.edu"
                      EmailVerification "135790" Demo.otp2_id Demo.t0 true w))
              "bbbbbbbbbbbbbbbbbbbbbbbb" "bob@example.edu" "135790"
              Demo.otp2_id Demo.t0 (Demo.t0 + Demo.minutes 5) true
              (fst (generateAndSendOTP Demo.env Demo.createHmac
                      "bbbbbbbbbbbbbbbbbbbbbbbb" "bob@example.edu"
                      EmailVerification "135790" Demo.otp2_id Demo.t0 true w))
              bob)
    as (w2 & Hverify & _).
  - repeat constructor; simpl; intuition discriminate.
  - reflexivity.
  - reflexivity.
  - discriminate.
  - apply surjective_pairing.
  - vm_compute. reflexivity.
  - exists w2. exact Hverify.
Defined.

Lemma getUserPermissionsFromDB_exact_witness :
  ∃ perms,
    getUserPermissionsFromDB Demo.alice_id Demo.w_login
    = (Returns perms, Demo.w_login)
    ∧ List.map cp_name perms = ["course:read"].
Proof.
  destruct (getUserPermissionsFromDB_exact Demo.w_login Demo.alice_id
              Demo.alice_id Demo.alice eq_refl eq_refl)
    as (perms & Hrun & _).
  - intros (r & Hr & Hin & _ & Hname). simpl in Hr.
    destruct Hr as [<-|[<-|[]]]; discriminate.
  - exists perms. split; [exact Hrun|].
    assert (Hperms : fst (getUserPermissionsFromDB Demo.alice_id Demo.w_login)
                     = Returns perms) by now rewrite Hrun.
    vm_compute in Hperms. injection Hperms as <-. reflexivity.
Defined.

Lemma getUserPermissions_caches_witness :
  let first := getUserPermissions Demo.alice_id Demo.t0 Demo.w_login in
  let w2 := set_users (fun _ => [Demo.alice_admin]) (snd first) in
  ∃ perms,
    first = (Returns perms, snd first)
    ∧ getUserPermissions Demo.alice_id (Demo.t0 + Demo.minutes 4) w2
      = (Returns perms, w2).
Proof.
  intros first w2.
  assert (Hrun : ∃ perms, first = (Returns perms, snd first)).
  { eexists. vm_compute. reflexivity. }
  destruct Hrun as [perms Hrun]. exists perms. split; [exact Hrun|].
  apply (getUserPermissions_caches Demo.w_login (snd first) Demo.alice_id
           Demo.t0 perms eq_refl Hrun).
  - reflexivity.
  - vm_compute. reflexivity.
Defined.

Lemma authMiddleware_outcome_witness :
  ∃ user,
    In user (users (db Demo.w_login))
    ∧ authMiddleware Demo.env Demo.jwt_verify (Some "Bearer jwt.A1") Demo.t1
        Demo.w_login
      = (Returns (requestUser user), Demo.w_login).
Proof.
  assert (Hrun : authMiddleware Demo.env Demo.jwt_verify (Some "Bearer jwt.A1")
                   Demo.t1 Demo.w_login
                 = (Returns (requestUser Demo.alice), Demo.w_login))
    by (vm_compute; reflexivity).
  destruct (authMiddleware_outcome Demo.env Demo.jwt_verify _ _ _ _ _ Hrun)
    as (_ & header & p & uid & user & _ & _ & _ & _ & _ & _ & Hin & _ & _ & Hu).
  exists user. split; [exact Hin|]. rewrite Hrun. now rewrite Hu.
Defined.

Lemma generateAuthTokens_then_authMiddleware_witness :
  ∃ w1,
    generateAuthTokens Demo.env Demo.jwt_sign Demo.alice_id
      "alice@example.edu" Demo.R2_id Demo.t1 Demo.w_login
    = (Returns ("jwt.A2", "jwt.R2"), w1)
    ∧ authMiddleware Demo.env Demo.jwt_verify (Some "Bearer jwt.A2")
        (Demo.t1 + 1000) w1
      = (Returns (requestUser Demo.alice), w1).
Proof.
  destruct (generateAuthTokens_then_authMiddleware Demo.env Demo.jwt_sign
              Demo.jwt_verify Demo.w_login Demo.alice_id "alice@example.edu"
              Demo.R2_id Demo.t1 (Demo.t1 + 1000) Demo.alice_id Demo.alice
              eq_refl eq_refl eq_refl eq_refl eq_refl eq_refl
              ltac:(apply not_elem_of_empty))
    as (refreshToken & w1 & Hgen & Hauth).
  exists w1. split; [|exact Hauth].
  rewrite Hgen. f_equal. f_equal.
  assert (Hfst : fst (generateAuthTokens Demo.env Demo.jwt_sign Demo.alice_id
                        "alice@example.edu" Demo.R2_id Demo.t1 Demo.w_login)
                 = Returns (Demo.jwt_sign
                              (accessPayload Demo.env Demo.alice_id
                                 "alice@example.edu" (usr_roles Demo.alice)
                                 Demo.t1)
                              (ACCESS_TOKEN_PRIVATE_KEY Demo.env),
                            refreshToken)) by now rewrite Hgen.
  vm_compute in Hfst. now injection Hfst as <-.
Defined.
